(** * autostarsbot: the gift-buying loop of [script.py]

    A shallow embedding of the core of [script.py] ([stars_value],
    [RunConfig] and [GiftBuyer.run]) together with the properties of the
    acquisition loop that the specification states.

    Modelling conventions.
    - Python objects probed with [getattr(o, name, default)] are records
      whose fields are options: [None] stands for an attribute that the
      object does not have.
    - The number returned by [stars_value] is a Python [int] or [float];
      either is modelled by the rational it denotes ([Q]).  Python compares
      an [int] with a [float] by their exact values, so the comparisons
      of the loop are comparisons of these rationals.  The [float]
      operations of line 30 (conversion of [amount], the true division
      by [1_000_000_000], the addition) round their exact result to the
      nearest binary64 number, ties to even ([round_double]).
    - [list.sort(key=...)] is Python's stable sort; it is modelled by a
      stable insertion sort on the key.
    - The Telegram client is an environment of oracles, indexed by the
      number of [await]s the coroutine has already performed. *)

From Stdlib Require Import ZArith QArith Qminmax List Bool Lia Lqa Permutation Sorted String.
Import ListNotations.
Local Open Scope Z_scope.

(* ------------------------------------------------------------------ *)
(** ** Values of the remote API *)

(** What [getattr(x, "stars", 0)] or [getattr(status, "balance", 0)] can
    evaluate to: [None], an integer, or a [StarsAmount]-like object that
    has an [amount] attribute and possibly a [nanos] attribute. *)
Inductive StarsVal : Type :=
| PyNone
| PyInt (n : Z)
| PyAmount (amount : option Z) (nanos : option Z).

(** [x or 0] on an optional integer: [None] and [0] both give [0]. *)
Definition or0 (x : option Z) : Z :=
  match x with
  | Some n => n
  | None => 0
  end.

(** The integer nearest to [n / d], for [0 <= n] and [0 < d]; a tie goes
    to the even neighbour. *)
Definition round_half_even (n d : Z) : Z :=
  let q := n / d in
  let r := n mod d in
  match 2 * r ?= d with
  | Lt => q
  | Gt => q + 1
  | Eq => if Z.even q then q else q + 1
  end.

(** The binary64 number nearest to a rational, ties to even: the result
    of a [float] operation whose exact result is [x].  The significand
    has 53 bits: with [2^lg <= |x| < 2^(lg+1)] the result is a multiple
    of [2^(lg-52)].  The exponent is not bounded here; binary64 agrees
    for magnitudes from [2^-1022] up to [2^1024], a range that the
    64-bit [amount] and [nanos] of the API never leave. *)
Definition round_double (x : Q) : Q :=
  let n := Qnum x in
  let d := Z.pos (Qden x) in
  if n =? 0 then inject_Z 0
  else
    let a := Z.abs n in
    let k := Z.log2 a - Z.log2 d in
    let lg :=
      if (if 0 <=? k then d * 2 ^ k <=? a else d <=? a * 2 ^ (- k))
      then k else k - 1 in
    let e := lg - 52 in
    if 0 <=? e
    then inject_Z (Z.sgn n * round_half_even a (d * 2 ^ e) * 2 ^ e)
    else Qmake (Z.sgn n * round_half_even (a * 2 ^ (- e)) d)
               (Z.to_pos (2 ^ (- e))).

(** [stars_value], lines 28-31.  With an [amount] attribute the result
    is the [float] [amount + nanos / 1_000_000_000]: the quotient is a
    [float], [amount] is converted to a [float] to be added to it, and
    the sum is a [float]; each of the three is rounded.  Otherwise the
    result is the [int] [int(v or 0)]. *)
Definition stars_value (v : StarsVal) : Q :=
  match v with
  | PyAmount amount nanos =>
      round_double
        (round_double (inject_Z (or0 amount))
         + round_double (inject_Z (or0 nanos) / inject_Z 1000000000))%Q
  | PyInt n => inject_Z n
  | PyNone => inject_Z 0
  end.

(** A catalog entry.  Every attribute the loop reads is read through
    [getattr] with a default, so every one of them may be absent. *)
Record Gift : Type := mkGift {
  gift_id : Z;
  limited : option bool;
  sold_out : option bool;
  availability_remains : option Z;
  stars : option StarsVal
}.

(** [getattr(o, name, default)]. *)
Definition getattr {A : Type} (field : option A) (default : A) : A :=
  match field with
  | Some a => a
  | None => default
  end.

(** [RunConfig], lines 34-39. *)
Record RunConfig : Type := mkRunConfig {
  session : string;
  recipient : string;
  max_price_stars : Z;
  poll_interval : Z
}.

(* ------------------------------------------------------------------ *)
(** ** Offer evaluation, lines 96-105 *)

Definition Qltb (x y : Q) : bool := negb (Qle_bool y x).

(** [price = stars_value(getattr(g, "stars", 0))], line 101. *)
Definition price_of (g : Gift) : Q :=
  stars_value (getattr (stars g) (PyInt 0)).

(** [remains is None or remains > 0]. *)
Definition remains_ok (remains : option Z) : bool :=
  match remains with
  | None => true
  | Some r => 0 <? r
  end.

(** The condition of the [if] on line 102. *)
Definition qualifies (cfg : RunConfig) (g : Gift) : bool :=
  let limited := getattr (limited g) false in
  let sold_out := getattr (sold_out g) false in
  let remains := availability_remains g in
  let price := price_of g in
  limited && negb sold_out && remains_ok remains
    && Qle_bool price (inject_Z (max_price_stars cfg)).

(** The [for g in gifts] loop, lines 97-103: the list of [(price, g)]. *)
Fixpoint collect (cfg : RunConfig) (gifts : list Gift) : list (Q * Gift) :=
  match gifts with
  | [] => []
  | g :: rest =>
      if qualifies cfg g
      then (price_of g, g) :: collect cfg rest
      else collect cfg rest
  end.

(** [list.sort(key=lambda x: x[0])]: a stable sort on the first
    component.  An element is placed in front of the first element whose
    key is not smaller, hence before every later element of equal key. *)
Fixpoint insert_by_key (x : Q * Gift) (l : list (Q * Gift)) : list (Q * Gift) :=
  match l with
  | [] => [x]
  | y :: rest =>
      if Qle_bool (fst x) (fst y)
      then x :: y :: rest
      else y :: insert_by_key x rest
  end.

Fixpoint sort_by_key (l : list (Q * Gift)) : list (Q * Gift) :=
  match l with
  | [] => []
  | x :: rest => insert_by_key x (sort_by_key rest)
  end.

(** The value of [candidates] after line 105. *)
Definition candidates (cfg : RunConfig) (gifts : list Gift) : list (Q * Gift) :=
  sort_by_key (collect cfg gifts).

(** *** The evaluator as the specification words it

    The specification describes an offer by its normalized fields: a
    limited flag, a sold-out flag, an optional remaining count and a
    price.  [offer_eligible] is the eligibility predicate of the
    specification, written on those fields. *)
Definition offer_limited (g : Gift) : bool := getattr (limited g) false.
Definition offer_sold_out (g : Gift) : bool := getattr (sold_out g) false.
Definition offer_remaining (g : Gift) : option Z := availability_remains g.

Definition offer_eligible (ceiling : Z) (g : Gift) : Prop :=
  offer_limited g = true
  /\ offer_sold_out g = false
  /\ (offer_remaining g = None \/ exists r, offer_remaining g = Some r /\ 0 < r)
  /\ (price_of g <= inject_Z ceiling)%Q.

Definition offer_eligibleb (ceiling : Z) (g : Gift) : bool :=
  Bool.eqb (offer_limited g) true
  && Bool.eqb (offer_sold_out g) false
  && match offer_remaining g with None => true | Some r => 0 <? r end
  && Qle_bool (price_of g) (inject_Z ceiling).

Definition priced (g : Gift) : Q * Gift := (price_of g, g).

(** Selects the entries of a candidate list whose price equals [p]. *)
Definition at_price (p : Q) (c : Q * Gift) : bool := Qeq_bool (fst c) p.

Definition price_le (a b : Q * Gift) : Prop := (fst a <= fst b)%Q.

(* ------------------------------------------------------------------ *)
(** ** The platform client and the observable behaviour of a run *)

(** Exceptions the coroutine can meet. *)
Inductive Exn : Type :=
| RuntimeError
| AuthKeyUnregisteredError
| RpcError (code : Z).

(** The result of an awaited call: a value, or a raised exception. *)
Inductive Result (A : Type) : Type :=
| Ok (a : A)
| Raise (e : Exn).
Arguments Ok {A} a.
Arguments Raise {A} e.

(** The answer to [GetStarsStatusRequest]; [balance] is read with
    [getattr(status, "balance", 0)]. *)
Record StarsStatus : Type := mkStatus { balance : option StarsVal }.

(** The answer to [GetStarGiftsRequest]: either [StarGiftsNotModified]
    or an object whose [hash] and [gifts] are read with [getattr]. *)
Inductive GiftsResp : Type :=
| StarGiftsNotModified
| StarGifts (hash : option Z) (gifts : option (list Gift)).

(** The answer to [GetPaymentFormRequest]. *)
Inductive PaymentForm : Type :=
| PaymentFormStarGift (form_id : Z)
| PaymentFormStars (form_id : Z)
| PaymentFormOther (form_id : Z).

Definition InputPeer : Type := Z.

(** The lines the core passes to [self.log]. *)
Inductive LogLine : Type :=
| LogBalance (balance : Q)                 (* line 65 *)
| LogAuthRequired                          (* line 67 *)
| LogAuthDone                              (* line 71 *)
| LogRecipient (recipient : string)        (* line 76 *)
| LogCatalogError (e : Exn)                (* line 82 *)
| LogSkip (balance price : Q)              (* line 116 *)
| LogFormError (e : Exn)                   (* line 127 *)
| LogBought (gift : Z) (price : Q)         (* line 136 *)
| LogPayError (e : Exn)                    (* line 139 *)
| LogUnexpectedForm (form : PaymentForm).  (* line 141 *)

(** What a run does, as seen from outside: the calls it awaits (with
    their outcome), its waits and its log lines. *)
Inductive Event : Type :=
| EvConnect (session : string)                         (* line 58 *)
| EvLogin (session : string)                           (* lines 69-70 *)
| EvStatus (r : Result StarsStatus)                    (* lines 63, 112 *)
| EvEntity (recipient : string) (r : Result InputPeer) (* line 75 *)
| EvGifts (hash : Z) (r : Result GiftsResp)            (* line 80 *)
| EvForm (peer : InputPeer) (gift : Z) (r : Result PaymentForm) (* line 125 *)
| EvSend (form : Z) (peer : InputPeer) (gift : Z) (r : Result unit) (* line 132 *)
| EvSleep (d : Z)                                      (* asyncio.sleep *)
| EvLog (m : LogLine).

(** An event together with the time at which it starts. *)
Definition Entry : Type := (Z * Event)%type.

(** The environment of a run.  The answers of the remote service are
    oracles indexed by the number of [await]s already performed;
    [call_duration] is the time the n-th awaited call takes.  [API_ID]
    and [API_HASH] are the module-level credentials.  [stop_at] is the
    time at which [_stop_event.set] runs on the loop, if the control
    surface asked for a stop ([GiftBuyer.stop] drops a request made while
    [self._client] is not yet assigned). *)
Record Env : Type := mkEnv {
  API_ID : Z;
  API_HASH : string;
  get_stars_status : nat -> Result StarsStatus;
  get_input_entity : nat -> string -> Result InputPeer;
  get_star_gifts : nat -> Z -> Result GiftsResp;
  get_payment_form : nat -> InputPeer -> Z -> Result PaymentForm;
  send_stars_form : nat -> Z -> InputPeer -> Z -> Result unit;
  call_duration : nat -> nat;
  stop_at : option Z
}.

(** The state that a run threads: how many awaits it has performed, the
    clock, and everything it has done so far, oldest first. *)
Record World : Type := mkWorld {
  awaits : nat;
  now : Z;
  timeline : list Entry
}.

Definition start_world : World := mkWorld 0 0 [].

(** An awaited operation [e] that takes [d] units of time. *)
Definition await (e : Event) (d : Z) (w : World) : World :=
  mkWorld (S (awaits w)) (now w + d) (timeline w ++ [(now w, e)]).

(** [self.log(m)]: takes no time and is not a suspension point. *)
Definition say (m : LogLine) (w : World) : World :=
  mkWorld (awaits w) (now w) (timeline w ++ [(now w, EvLog m)]).

(** [await asyncio.sleep(d)]: a plain timer; a delay that is not
    positive yields to the loop once and returns. *)
Definition sleep (d : Z) (w : World) : World :=
  await (EvSleep d) (Z.max 0 d) w.

Definition network (env : Env) (w : World) : Z :=
  Z.of_nat (call_duration env (awaits w)).

(** [self._stop_event.is_set()] when the clock shows [t]. *)
Definition stop_seen (env : Env) (t : Z) : bool :=
  match stop_at env with
  | Some ts => ts <=? t
  | None => false
  end.

Definition is_set (env : Env) (w : World) : bool := stop_seen env (now w).

(** Entering [async with TelegramClient(...)], lines 58 and 69.  Opening
    the client is taken to succeed; line 69 opens it a second time, for
    the login of the platform client.  Neither line is inside a [try]:
    an exception raised while the client opens would leave [run].  Such
    a failure is outside this model, and every property below is about
    runs in which the client opens. *)
Definition connect (env : Env) (s : string) (w : World) : World :=
  await (EvConnect s) (network env w) w.

Definition login (env : Env) (s : string) (w : World) : World :=
  await (EvLogin s) (network env w) w.

Definition GetStarsStatusRequest (env : Env) (w : World)
  : Result StarsStatus * World :=
  let r := get_stars_status env (awaits w) in
  (r, await (EvStatus r) (network env w) w).

Definition GetInputEntity (env : Env) (who : string) (w : World)
  : Result InputPeer * World :=
  let r := get_input_entity env (awaits w) who in
  (r, await (EvEntity who r) (network env w) w).

Definition GetStarGiftsRequest (env : Env) (hash : Z) (w : World)
  : Result GiftsResp * World :=
  let r := get_star_gifts env (awaits w) hash in
  (r, await (EvGifts hash r) (network env w) w).

Definition GetPaymentFormRequest (env : Env) (peer : InputPeer) (gift : Z)
  (w : World) : Result PaymentForm * World :=
  let r := get_payment_form env (awaits w) peer gift in
  (r, await (EvForm peer gift r) (network env w) w).

Definition SendStarsFormRequest (env : Env) (form : Z) (peer : InputPeer)
  (gift : Z) (w : World) : Result unit * World :=
  let r := send_stars_form env (awaits w) form peer gift in
  (r, await (EvSend form peer gift r) (network env w) w).

(** [isinstance(form, (PaymentFormStarGift, PaymentFormStars))], with the
    [form_id] that line 133 then reads. *)
Definition stars_form (form : PaymentForm) : option Z :=
  match form with
  | PaymentFormStarGift fid => Some fid
  | PaymentFormStars fid => Some fid
  | PaymentFormOther _ => None
  end.

Definition balance_of (status : StarsStatus) : Q :=
  stars_value (getattr (balance status) (PyInt 0)).

(* ------------------------------------------------------------------ *)
(** ** [GiftBuyer.run], lines 54-143 *)

(** How the [for price, gift in candidates] loop is left. *)
Inductive ForExit : Type :=
| ForReturn            (* the [return] of line 137 *)
| ForRaise (e : Exn)   (* an exception nobody catches *)
| ForDone.             (* [break], or the candidates are exhausted *)

(** The [for] loop of lines 107-141. *)
Fixpoint buy (env : Env) (to_peer : InputPeer) (cands : list (Q * Gift))
  (w : World) : ForExit * World :=
  match cands with
  | [] => (ForDone, w)
  | (price, gift) :: rest =>
      if is_set env w then (ForDone, w)
      else
        let (status, w1) := GetStarsStatusRequest env w in
        match status with
        | Raise e => (ForRaise e, w1)
        | Ok status =>
            let balance := balance_of status in
            if Qltb balance price
            then buy env to_peer rest (say (LogSkip balance price) w1)
            else
              let (form, w2) :=
                GetPaymentFormRequest env to_peer (gift_id gift) w1 in
              match form with
              | Raise e => buy env to_peer rest (say (LogFormError e) w2)
              | Ok form =>
                  match stars_form form with
                  | Some fid =>
                      let (result, w3) :=
                        SendStarsFormRequest env fid to_peer (gift_id gift) w2 in
                      match result with
                      | Ok _ =>
                          (ForReturn, say (LogBought (gift_id gift) price) w3)
                      | Raise e =>
                          buy env to_peer rest (say (LogPayError e) w3)
                      end
                  | None =>
                      buy env to_peer rest (say (LogUnexpectedForm form) w2)
                  end
              end
        end
  end.

(** How a run ends.  [StillRunning] is not an outcome of the program: it
    says that the [while] loop was still going when the fuel ran out. *)
Inductive Outcome : Type :=
| Purchased          (* [return] after the first purchase *)
| Cancelled          (* the [while] condition saw the stop event *)
| LoginRequired      (* [return] of line 72 *)
| Raised (e : Exn)   (* an exception left [run] *)
| StillRunning.

(** The [while not self._stop_event.is_set()] loop, lines 78-143.
    [fuel] bounds the number of iterations. *)
Fixpoint poll (fuel : nat) (env : Env) (cfg : RunConfig) (to_peer : InputPeer)
  (last_hash : Z) (w : World) : Outcome * World :=
  match fuel with
  | O => (StillRunning, w)
  | S fuel' =>
      if is_set env w then (Cancelled, w)
      else
        let (gifts_resp, w1) := GetStarGiftsRequest env last_hash w in
        match gifts_resp with
        | Raise e =>
            poll fuel' env cfg to_peer last_hash
              (sleep (poll_interval cfg) (say (LogCatalogError e) w1))
        | Ok StarGiftsNotModified =>
            poll fuel' env cfg to_peer last_hash (sleep (poll_interval cfg) w1)
        | Ok (StarGifts hash gifts) =>
            let last_hash := or0 hash in
            let gifts := getattr gifts [] in
            match gifts with
            | [] =>
                poll fuel' env cfg to_peer last_hash
                  (sleep (poll_interval cfg) w1)
            | _ :: _ =>
                match buy env to_peer (candidates cfg gifts) w1 with
                | (ForReturn, w2) => (Purchased, w2)
                | (ForRaise e, w2) => (Raised e, w2)
                | (ForDone, w2) =>
                    poll fuel' env cfg to_peer last_hash
                      (sleep (poll_interval cfg) w2)
                end
            end
        end
  end.

(** [GiftBuyer.run]. *)
Definition run (fuel : nat) (env : Env) (cfg : RunConfig) : Outcome * World :=
  if (API_ID env =? 0) || (API_HASH env =? "")%string
  then (Raised RuntimeError, start_world)
  else
    let w := connect env (session cfg) start_world in
    let (status, w1) := GetStarsStatusRequest env w in
    match status with
    | Raise AuthKeyUnregisteredError =>
        let w2 := say LogAuthRequired w1 in
        let w3 := login env (session cfg) w2 in
        (LoginRequired, say LogAuthDone w3)
    | Raise e => (Raised e, w1)
    | Ok status =>
        let w2 := say (LogBalance (balance_of status)) w1 in
        let (to_peer, w3) := GetInputEntity env (recipient cfg) w2 in
        match to_peer with
        | Raise e => (Raised e, w3)
        | Ok to_peer =>
            poll fuel env cfg to_peer 0 (say (LogRecipient (recipient cfg)) w3)
        end
    end.

(* ------------------------------------------------------------------ *)
(** ** The protocol of a run

    The states of the acquisition loop, as they can be told from the
    timeline alone, and the events that each state allows.  The loop of
    the code is shown below to follow this protocol; the properties of
    whole runs are then read off the protocol. *)

Inductive Phase : Type :=
| Starting
| Connected
| Denied
| Resolving
| Greeting (peer : InputPeer)
| Logging (m : LogLine) (next : Phase)
| AtHead (peer : InputPeer) (last_hash : Z) (clock : Z)
| Waiting (peer : InputPeer) (last_hash : Z)
| InBatch (peer : InputPeer) (last_hash : Z) (cands : list (Q * Gift))
| Paying (peer : InputPeer) (last_hash : Z) (rest : list (Q * Gift))
    (cand : Q * Gift) (status : StarsStatus)
| Submitting (peer : InputPeer) (last_hash : Z) (rest : list (Q * Gift))
    (cand : Q * Gift) (form : Z)
| Finished (out : Outcome).

(** Line 90: the token that the next poll sends. *)
Definition next_hash (last_hash : Z) (r : Result GiftsResp) : Z :=
  match r with
  | Ok (StarGifts hash _) => or0 hash
  | _ => last_hash
  end.

Definition after_first_status (r : Result StarsStatus) : Phase :=
  match r with
  | Raise AuthKeyUnregisteredError => Logging LogAuthRequired Denied
  | Raise e => Finished (Raised e)
  | Ok status => Logging (LogBalance (balance_of status)) Resolving
  end.

Definition after_entity (r : Result InputPeer) : Phase :=
  match r with
  | Raise e => Finished (Raised e)
  | Ok peer => Greeting peer
  end.

Definition after_gifts (cfg : RunConfig) (peer : InputPeer) (last_hash : Z)
  (r : Result GiftsResp) : Phase :=
  match r with
  | Raise e => Logging (LogCatalogError e) (Waiting peer last_hash)
  | Ok StarGiftsNotModified => Waiting peer last_hash
  | Ok (StarGifts hash gifts) =>
      match getattr gifts [] with
      | [] => Waiting peer (or0 hash)
      | g :: l => InBatch peer (or0 hash) (candidates cfg (g :: l))
      end
  end.

Definition after_status (peer : InputPeer) (last_hash : Z)
  (rest : list (Q * Gift)) (cand : Q * Gift) (r : Result StarsStatus) : Phase :=
  match r with
  | Raise e => Finished (Raised e)
  | Ok status =>
      if Qltb (balance_of status) (fst cand)
      then Logging (LogSkip (balance_of status) (fst cand))
             (InBatch peer last_hash rest)
      else Paying peer last_hash rest cand status
  end.

Definition after_form (peer : InputPeer) (last_hash : Z)
  (rest : list (Q * Gift)) (cand : Q * Gift) (r : Result PaymentForm) : Phase :=
  match r with
  | Raise e => Logging (LogFormError e) (InBatch peer last_hash rest)
  | Ok form =>
      match stars_form form with
      | Some fid => Submitting peer last_hash rest cand fid
      | None => Logging (LogUnexpectedForm form) (InBatch peer last_hash rest)
      end
  end.

Definition after_send (peer : InputPeer) (last_hash : Z)
  (rest : list (Q * Gift)) (cand : Q * Gift) (r : Result unit) : Phase :=
  match r with
  | Ok _ => Logging (LogBought (gift_id (snd cand)) (fst cand)) (Finished Purchased)
  | Raise e => Logging (LogPayError e) (InBatch peer last_hash rest)
  end.

(** The phases a log line can lead to. *)
Definition settled (ph : Phase) : Prop :=
  match ph with
  | Denied | Resolving | Waiting _ _ | InBatch _ _ _ | Finished _ => True
  | _ => False
  end.

Section Protocol.

Variable env : Env.
Variable cfg : RunConfig.

Inductive Step : Phase -> Entry -> Phase -> Prop :=
| StepConnect t :
    Step Starting (t, EvConnect (session cfg)) Connected
| StepFirstStatus t r :
    Step Connected (t, EvStatus r) (after_first_status r)
| StepLogin t :
    Step Denied (t, EvLogin (session cfg))
      (Logging LogAuthDone (Finished LoginRequired))
| StepEntity t r :
    Step Resolving (t, EvEntity (recipient cfg) r) (after_entity r)
| StepGreeting t peer :
    Step (Greeting peer) (t, EvLog (LogRecipient (recipient cfg)))
      (AtHead peer 0 t)
| StepLog t m next :
    settled next ->
    Step (Logging m next) (t, EvLog m) next
| StepGifts peer h clock r :
    stop_seen env clock = false ->
    Step (AtHead peer h clock) (clock, EvGifts h r) (after_gifts cfg peer h r)
| StepWait t peer h :
    Step (Waiting peer h) (t, EvSleep (poll_interval cfg))
      (AtHead peer h (t + Z.max 0 (poll_interval cfg)))
| StepLeaveBatch t peer h cands :
    Step (InBatch peer h cands) (t, EvSleep (poll_interval cfg))
      (AtHead peer h (t + Z.max 0 (poll_interval cfg)))
| StepStatus t peer h cand rest r :
    Step (InBatch peer h (cand :: rest)) (t, EvStatus r)
      (after_status peer h rest cand r)
| StepForm t peer h rest cand status r :
    Qltb (balance_of status) (fst cand) = false ->
    Step (Paying peer h rest cand status)
      (t, EvForm peer (gift_id (snd cand)) r)
      (after_form peer h rest cand r)
| StepSend t peer h rest cand fid r :
    Step (Submitting peer h rest cand fid)
      (t, EvSend fid peer (gift_id (snd cand)) r)
      (after_send peer h rest cand r).

(** A sequence of events leading from one phase to another. *)
Inductive Trace : Phase -> list Entry -> Phase -> Prop :=
| TraceNil ph : Trace ph [] ph
| TraceCons ph e mid l ph' :
    Step ph e mid -> Trace mid l ph' -> Trace ph (e :: l) ph'.

(** The phase in which a run that ended with [out] in world [w] is. *)
Definition final (out : Outcome) (w : World) (ph : Phase) : Prop :=
  match out with
  | Cancelled =>
      exists peer h, ph = AtHead peer h (now w) /\ stop_seen env (now w) = true
  | StillRunning => exists peer h, ph = AtHead peer h (now w)
  | _ => ph = Finished out
  end.

End Protocol.

(** The candidates of a batch are the priced offers that qualify. *)
Definition genuine (cfg : RunConfig) (c : Q * Gift) : Prop :=
  c = priced (snd c) /\ qualifies cfg (snd c) = true.

(** The candidates that a phase carries. *)
Definition carried (ph : Phase) : list (Q * Gift) :=
  match ph with
  | InBatch _ _ cands => cands
  | Paying _ _ rest cand _ => cand :: rest
  | Submitting _ _ rest cand _ => cand :: rest
  | Logging _ (InBatch _ _ cands) => cands
  | _ => []
  end.

(* ------------------------------------------------------------------ *)
(** ** Concrete inputs used by the examples below *)

Definition cfg0 : RunConfig := mkRunConfig "tg_gifts.session" "me" 500 15.

Definition gift (id : Z) (price : option StarsVal) : Gift :=
  mkGift id (Some true) (Some false) None price.

Definition stars_status (n : Z) : StarsStatus :=
  mkStatus (Some (PyAmount (Some n) (Some 0))).

Definition status_of (n : Z) : Result StarsStatus := Ok (stars_status n).

(** An environment in which every call takes one unit of time, the
    balance is 1000 and every payment goes through; only the catalog
    answers and the stop request vary. *)
Definition env_with (catalog : nat -> Z -> Result GiftsResp)
  (stop : option Z) : Env :=
  mkEnv 12345 "hash"
    (fun _ => status_of 1000)
    (fun _ _ => Ok 777)
    catalog
    (fun _ _ gift => Ok (PaymentFormStarGift (gift + 1000)))
    (fun _ _ _ _ => Ok tt)
    (fun _ => 1%nat)
    stop.

(** The catalog never changes. *)
Definition env_unchanged : Env :=
  env_with (fun _ _ => Ok StarGiftsNotModified) None.

(** The catalog is empty, and comes with the token 7. *)
Definition env_empty : Env :=
  env_with (fun _ _ => Ok (StarGifts (Some 7) (Some []))) None.

(** Two offers that qualify, priced 100 and 300. *)
Definition two_offers : list Gift :=
  [gift 1 (Some (PyInt 100)); gift 2 (Some (PyInt 300))].

Definition env_two_offers : Env :=
  env_with (fun _ _ => Ok (StarGifts (Some 7) (Some two_offers))) None.


(** The catalog never changes, and a stop is requested at time [ts]. *)
Definition env_stopped_at (ts : Z) : Env :=
  env_with (fun _ _ => Ok StarGiftsNotModified) (Some ts).

(** Two offers without a price field, in this catalog order. *)
Definition unpriced_offers : list Gift := [gift 1 None; gift 2 None].

Definition env_unpriced : Env :=
  env_with (fun _ _ => Ok (StarGifts (Some 7) (Some unpriced_offers))) None.

(** Is this entry a payment-form request for the offer [gid]? *)
Definition is_form_for (gid : Z) (e : Entry) : bool :=
  match snd e with
  | EvForm _ g _ => g =? gid
  | _ => false
  end.

(** The first balance read (await number 1, after the connection)
    succeeds; every later one fails with an RPC error. *)
Definition env_balance_fails : Env :=
  mkEnv 12345 "hash"
    (fun n => if (n <=? 1)%nat then status_of 1000 else Raise (RpcError 500))
    (fun _ _ => Ok 777)
    (fun _ _ => Ok (StarGifts (Some 7) (Some two_offers)))
    (fun _ _ gift => Ok (PaymentFormStarGift (gift + 1000)))
    (fun _ _ _ _ => Ok tt)
    (fun _ => 1%nat)
    None.

(** The catalog request fails once, then the catalog is unchanged. *)
Definition env_catalog_fails : Env :=
  env_with (fun n _ => if (n <=? 3)%nat then Raise (RpcError 500)
                       else Ok StarGiftsNotModified) None.

(** The service rejects the session. *)
Definition env_rejected : Env :=
  mkEnv 12345 "hash"
    (fun _ => Raise AuthKeyUnregisteredError)
    (fun _ _ => Ok 777)
    (fun _ _ => Ok StarGiftsNotModified)
    (fun _ _ gift => Ok (PaymentFormStarGift (gift + 1000)))
    (fun _ _ _ _ => Ok tt)
    (fun _ => 1%nat)
    None.

(** An offer priced exactly at the ceiling of [cfg0], and one priced one
    star above it. *)
Definition offer_at_ceiling : Gift := gift 5 (Some (PyInt 500)).
Definition offer_above_ceiling : Gift := gift 6 (Some (PyInt 501)).

(** The balance is always [n]; the catalog holds the one offer [g]. *)
Definition env_balance (n : Z) (g : Gift) : Env :=
  mkEnv 12345 "hash"
    (fun _ => status_of n)
    (fun _ _ => Ok 777)
    (fun _ _ => Ok (StarGifts (Some 7) (Some [g])))
    (fun _ _ gift => Ok (PaymentFormStarGift (gift + 1000)))
    (fun _ _ _ _ => Ok tt)
    (fun _ => 1%nat)
    None.

(* ------------------------------------------------------------------ *)
(** ** Readings of a timeline and of a phase *)

(** The token that line 80 sends after the history [l]: 0 at first, then
    whatever line 90 made of the latest catalog answer. *)
Definition token_after (l : list Entry) : Z :=
  fold_left
    (fun h e => match snd e with
                | EvGifts h0 r => next_hash h0 r
                | _ => h
                end)
    l 0.

(** The value of [gifts] (line 91) after the history [l]: the offer list
    of the latest catalog answer that carried one, and the empty list
    before any such answer. *)
Definition catalog_step (gs : list Gift) (e : Entry) : list Gift :=
  match snd e with
  | EvGifts _ (Ok (StarGifts _ gifts)) => getattr gifts []
  | _ => gs
  end.

Definition latest_gifts (l : list Entry) : list Gift :=
  fold_left catalog_step l [].

(** The value of [last_hash] in a phase; it is 0 until the loop starts,
    and of no interest once the run has ended. *)
Fixpoint token_of (ph : Phase) : option Z :=
  match ph with
  | Starting | Connected | Denied | Resolving | Greeting _ => Some 0
  | Logging _ next => token_of next
  | AtHead _ h _ | Waiting _ h | InBatch _ h _
  | Paying _ h _ _ _ | Submitting _ h _ _ _ => Some h
  | Finished _ => None
  end.

(** The value of [to_peer] in a phase, once line 75 has assigned it. *)
Fixpoint peer_of (ph : Phase) : option InputPeer :=
  match ph with
  | Greeting p | AtHead p _ _ | Waiting p _ | InBatch p _ _
  | Paying p _ _ _ _ | Submitting p _ _ _ _ => Some p
  | Logging _ next => peer_of next
  | _ => None
  end.

(** Entries that the [while] loop makes only after it has tested the
    stop event: the catalog request and the balance read. *)
Definition tested_call (e : Entry) : bool :=
  match snd e with
  | EvGifts _ _ | EvStatus _ => true
  | _ => false
  end.

(** Entries that start with the stop event clear, where the loop has
    just tested it. *)
Definition clear_when_tested (env : Env) (e : Entry) : Prop :=
  tested_call e = true -> stop_seen env (fst e) = false.

(** [w'] continues [w] with entries of that kind only. *)
Definition adds_tested (env : Env) (w : World) (w' : World) : Prop :=
  exists tail,
    timeline w' = timeline w ++ tail /\ Forall (clear_when_tested env) tail.

(** What the [for] loop does with candidates it cannot afford, when
    the first of its balance reads is the await number [n]: for each
    candidate one balance read, whatever status that read returns, and
    one skip line with the balance of that status. *)
Fixpoint skip_all (env : Env) (n : nat) (cands : list (Q * Gift))
  : list Event :=
  match cands with
  | [] => []
  | c :: rest =>
      match get_stars_status env n with
      | Ok status =>
          EvStatus (Ok status)
            :: EvLog (LogSkip (balance_of status) (fst c))
            :: skip_all env (S n) rest
      | Raise _ => []
      end
  end.




(** The recipient cannot be resolved. *)
Definition env_no_peer : Env :=
  mkEnv 12345 "hash"
    (fun _ => status_of 1000)
    (fun _ _ => Raise (RpcError 404))
    (fun _ _ => Ok (StarGifts (Some 7) (Some two_offers)))
    (fun _ _ gift => Ok (PaymentFormStarGift (gift + 1000)))
    (fun _ _ _ _ => Ok tt)
    (fun _ => 1%nat)
    None.

(** The balance is 50 and the two offers cost 100 and 300. *)
Definition env_poor : Env :=
  mkEnv 12345 "hash"
    (fun _ => status_of 50)
    (fun _ _ => Ok 777)
    (fun _ _ => Ok (StarGifts (Some 7) (Some two_offers)))
    (fun _ _ gift => Ok (PaymentFormStarGift (gift + 1000)))
    (fun _ _ _ _ => Ok tt)
    (fun _ => 1%nat)
    None.

(** The balance is 50 at every even await and 60 at every odd one; the
    two offers cost 100 and 300. *)
Definition env_short : Env :=
  mkEnv 12345 "hash"
    (fun n => if Nat.even n then status_of 50 else status_of 60)
    (fun _ _ => Ok 777)
    (fun _ _ => Ok (StarGifts (Some 7) (Some two_offers)))
    (fun _ _ gift => Ok (PaymentFormStarGift (gift + 1000)))
    (fun _ _ _ _ => Ok tt)
    (fun _ => 1%nat)
    None.

(** Amounts at which a [float] no longer holds every integer: [2^53 + 1]
    and [2^53 + 3] stars, and offers priced [2^53 + 1] and [2^53 + 4]
    under a ceiling that admits them. *)
Definition cfg_large : RunConfig :=
  mkRunConfig "tg_gifts.session" "me" 9007199254740996 15.

Definition offer_large : Gift := gift 9 (Some (PyInt 9007199254740993)).
Definition offer_larger : Gift := gift 10 (Some (PyInt 9007199254740996)).

(** A balance object with whole stars and nanos. *)
Definition stars_status_nanos (n nanos : Z) : StarsStatus :=
  mkStatus (Some (PyAmount (Some n) (Some nanos))).

(** The balance is always [n] stars and [nanos] nanos; the catalog holds
    the one offer [g]. *)
Definition env_balance_nanos (n nanos : Z) (g : Gift) : Env :=
  mkEnv 12345 "hash"
    (fun _ => Ok (stars_status_nanos n nanos))
    (fun _ _ => Ok 777)
    (fun _ _ => Ok (StarGifts (Some 7) (Some [g])))
    (fun _ _ gift => Ok (PaymentFormStarGift (gift + 1000)))
    (fun _ _ _ _ => Ok tt)
    (fun _ => 1%nat)
    None.

(** An offer priced 16777217 stars, under a ceiling that admits it. *)
Definition cfg_mid : RunConfig :=
  mkRunConfig "tg_gifts.session" "me" 16777217 15.

Definition offer_mid : Gift := gift 11 (Some (PyInt 16777217)).

(* ================================================================== *)
(** * Properties *)

(** ** The loop follows the protocol *)

Section Soundness.

Variable env : Env.
Variable cfg : RunConfig.

Lemma Trace_app a l1 b l2 c :
  Trace env cfg a l1 b -> Trace env cfg b l2 c -> Trace env cfg a (l1 ++ l2) c.
Proof.
  induction 1 as [|ph e mid l ph' Hs Ht IH]; intros H2; simpl; auto.
  econstructor; eauto.
Qed.

Lemma Trace_snoc a l b e c :
  Trace env cfg a l b -> Step env cfg b e c -> Trace env cfg a (l ++ [e]) c.
Proof.
  intros Ht Hs. eapply Trace_app; eauto.
  econstructor; eauto. constructor.
Qed.

Lemma Trace_app_inv l1 : forall a l2 c,
  Trace env cfg a (l1 ++ l2) c ->
  exists b, Trace env cfg a l1 b /\ Trace env cfg b l2 c.
Proof.
  induction l1 as [|e l1 IH]; simpl; intros a l2 c H.
  - exists a. split; [constructor | assumption].
  - inversion H as [|ph e' mid l ph' Hs Ht]; subst.
    destruct (IH _ _ _ Ht) as [b [H1 H2]].
    exists b. split; [econstructor; eauto | assumption].
Qed.

(** The [for] loop: from the head of a batch it either buys, lets an
    exception out, or stays in the batch. *)
Lemma buy_follows peer h : forall cands w res w',
  Trace env cfg Starting (timeline w) (InBatch peer h cands) ->
  buy env peer cands w = (res, w') ->
  exists ph,
    Trace env cfg Starting (timeline w') ph /\
    match res with
    | ForReturn => ph = Finished Purchased
    | ForRaise e => ph = Finished (Raised e)
    | ForDone => exists rest, ph = InBatch peer h rest
    end.
Proof.
  induction cands as [|[price gift] rest IH]; intros w res w' Ht Hb;
    cbn [buy] in Hb.
  - inversion Hb; subst. eauto.
  - destruct (is_set env w).
    { inversion Hb; subst. eauto. }
    unfold GetStarsStatusRequest in Hb. cbv beta iota zeta in Hb.
    set (r := get_stars_status env (awaits w)) in *.
    set (w1 := await (EvStatus r) (network env w) w) in *.
    assert (H1 : Trace env cfg Starting (timeline w1)
                   (after_status peer h rest (price, gift) r)).
    { eapply Trace_snoc; eauto. constructor. }
    destruct r as [status|e]; cbn [after_status fst snd] in H1.
    2:{ inversion Hb; subst. eauto. }
    destruct (Qltb (balance_of status) price) eqn:Hlt.
    { eapply IH; [|exact Hb].
      eapply Trace_snoc; eauto. constructor. exact I. }
    unfold GetPaymentFormRequest in Hb. cbv beta iota zeta in Hb.
    set (rf := get_payment_form env (awaits w1) peer (gift_id gift)) in *.
    set (w2 := await (EvForm peer (gift_id gift) rf) (network env w1) w1) in *.
    assert (H2 : Trace env cfg Starting (timeline w2)
                   (after_form peer h rest (price, gift) rf)).
    { eapply Trace_snoc; eauto.
      apply (StepForm env cfg _ peer h rest (price, gift) status rf). exact Hlt. }
    destruct rf as [form|e]; cbn [after_form] in H2.
    2:{ eapply IH; [|exact Hb].
        eapply Trace_snoc; eauto. constructor. exact I. }
    destruct (stars_form form) as [fid|] eqn:Hform.
    2:{ eapply IH; [|exact Hb].
        eapply Trace_snoc; eauto. constructor. exact I. }
    unfold SendStarsFormRequest in Hb. cbv beta iota zeta in Hb.
    set (rs := send_stars_form env (awaits w2) fid peer (gift_id gift)) in *.
    set (w3 := await (EvSend fid peer (gift_id gift) rs) (network env w2) w2) in *.
    assert (H3 : Trace env cfg Starting (timeline w3)
                   (after_send peer h rest (price, gift) rs)).
    { eapply Trace_snoc; eauto.
      apply (StepSend env cfg _ peer h rest (price, gift) fid rs). }
    destruct rs as [u|e]; cbn [after_send fst snd] in H3.
    + inversion Hb; subst. eexists. split; [|reflexivity].
      eapply Trace_snoc; eauto. constructor. exact I.
    + eapply IH; [|exact Hb].
      eapply Trace_snoc; eauto. constructor. exact I.
Qed.

(** The [while] loop: from its head it ends in a phase that matches its
    outcome. *)
Lemma poll_follows peer : forall fuel h w out w',
  Trace env cfg Starting (timeline w) (AtHead peer h (now w)) ->
  poll fuel env cfg peer h w = (out, w') ->
  exists ph, Trace env cfg Starting (timeline w') ph /\ final env out w' ph.
Proof.
  induction fuel as [|fuel IH]; intros h w out w' Ht Hp; cbn [poll] in Hp.
  - inversion Hp; subst. eexists. split; [eassumption|]. simpl. eauto.
  - unfold is_set in Hp. destruct (stop_seen env (now w)) eqn:Hstop.
    { inversion Hp; subst. eexists. split; [eassumption|]. simpl. eauto. }
    unfold GetStarGiftsRequest in Hp. cbv beta iota zeta in Hp.
    set (r := get_star_gifts env (awaits w) h) in *.
    assert (H1 : Trace env cfg Starting
                   (timeline (await (EvGifts h r) (network env w) w))
                   (after_gifts cfg peer h r)).
    { eapply Trace_snoc; eauto. constructor. exact Hstop. }
    assert (Hwait : forall w0 h0,
      Trace env cfg Starting (timeline w0) (Waiting peer h0) ->
      Trace env cfg Starting (timeline (sleep (poll_interval cfg) w0))
        (AtHead peer h0 (now (sleep (poll_interval cfg) w0)))).
    { intros w0 h0 H0. eapply Trace_snoc; eauto. constructor. }
    destruct r as [[|hash gifts]|e]; cbn [after_gifts] in H1.
    + eapply IH; [|exact Hp]. apply Hwait. exact H1.
    + destruct (getattr gifts []) as [|g l] eqn:Hg.
      * eapply IH; [|exact Hp]. apply Hwait. exact H1.
      * destruct (buy env peer (candidates cfg (g :: l))
                    (await (EvGifts h (Ok (StarGifts hash gifts))) (network env w) w))
          as [res w2] eqn:Hbuy.
        destruct (buy_follows peer (or0 hash) _
                    (await (EvGifts h (Ok (StarGifts hash gifts))) (network env w) w)
                    _ _ H1 Hbuy) as [ph [Hph Hres]].
        destruct res.
        -- inversion Hp; subst. eexists. split; [eassumption|]. reflexivity.
        -- inversion Hp; subst. eexists. split; [eassumption|]. reflexivity.
        -- destruct Hres as [rest' ->].
           eapply IH; [|exact Hp].
           eapply Trace_snoc; eauto. constructor.
    + eapply IH; [|exact Hp]. apply Hwait.
      eapply Trace_snoc; eauto. constructor. exact I.
Qed.

(** A whole run: without credentials nothing happens; otherwise the
    timeline is a trace of the protocol that ends in the phase of the
    outcome. *)
Lemma run_follows fuel out w :
  run fuel env cfg = (out, w) ->
  (out = Raised RuntimeError /\ timeline w = [])
  \/ exists ph, Trace env cfg Starting (timeline w) ph /\ final env out w ph.
Proof.
  unfold run. intros H.
  destruct ((API_ID env =? 0) || (API_HASH env =? "")%string).
  { inversion H; subst. left. split; reflexivity. }
  right.
  unfold GetStarsStatusRequest, GetInputEntity in H.
  cbv beta iota zeta in H.
  set (w0 := connect env (session cfg) start_world) in *.
  assert (H0 : Trace env cfg Starting (timeline w0) Connected).
  { apply (Trace_snoc Starting [] Starting); constructor. }
  set (r := get_stars_status env (awaits w0)) in *.
  set (w1 := await (EvStatus r) (network env w0) w0) in *.
  assert (H1 : Trace env cfg Starting (timeline w1) (after_first_status r)).
  { eapply Trace_snoc; eauto. constructor. }
  destruct r as [status|e].
  - cbn [after_first_status] in H1.
    set (w2 := say (LogBalance (balance_of status)) w1) in *.
    assert (H2 : Trace env cfg Starting (timeline w2) Resolving).
    { eapply Trace_snoc; eauto. constructor. exact I. }
    set (rp := get_input_entity env (awaits w2) (recipient cfg)) in *.
    set (w3 := await (EvEntity (recipient cfg) rp) (network env w2) w2) in *.
    assert (H3 : Trace env cfg Starting (timeline w3) (after_entity rp)).
    { eapply Trace_snoc; eauto. constructor. }
    destruct rp as [peer|e]; cbn [after_entity] in H3.
    + eapply poll_follows; [|exact H].
      eapply Trace_snoc; eauto.
      apply (StepGreeting env cfg).
    + inversion H; subst. eexists. split; [eassumption|]. reflexivity.
  - destruct e; cbn [after_first_status] in H1; inversion H; subst.
    + eexists. split; [eassumption|]. reflexivity.
    + eexists. split; [|reflexivity].
      eapply Trace_snoc; [|constructor; exact I].
      eapply Trace_snoc; [|constructor].
      eapply Trace_snoc; [|constructor; exact I].
      exact H1.
    + eexists. split; [eassumption|]. reflexivity.
Qed.

End Soundness.

(** ** What the protocol allows *)

Ltac break_final :=
  repeat match goal with
         | H : exists _, _ |- _ => destruct H
         | H : _ /\ _ |- _ => destruct H
         end.

Section ProtocolFacts.

Variable env : Env.
Variable cfg : RunConfig.

Lemma Trace_Finished out l ph :
  Trace env cfg (Finished out) l ph -> l = [] /\ ph = Finished out.
Proof.
  intros H. inversion H as [|? ? ? ? ? Hs]; subst; auto. inversion Hs.
Qed.

Lemma Trace_Logging m next l ph :
  Trace env cfg (Logging m next) l ph ->
  (l = [] /\ ph = Logging m next)
  \/ exists t l', l = (t, EvLog m) :: l' /\ Trace env cfg next l' ph.
Proof.
  intros H. inversion H as [|? ? ? ? ? Hs Ht]; subst; auto.
  inversion Hs; subst. right. eauto.
Qed.

Lemma Trace_Waiting peer h l ph :
  Trace env cfg (Waiting peer h) l ph ->
  (l = [] /\ ph = Waiting peer h)
  \/ exists t l', l = (t, EvSleep (poll_interval cfg)) :: l'
       /\ Trace env cfg (AtHead peer h (t + Z.max 0 (poll_interval cfg))) l' ph.
Proof.
  intros H. inversion H as [|? ? ? ? ? Hs Ht]; subst; auto.
  inversion Hs; subst. right. eauto.
Qed.

Lemma Trace_AtHead peer h clock l ph :
  Trace env cfg (AtHead peer h clock) l ph ->
  (l = [] /\ ph = AtHead peer h clock)
  \/ (stop_seen env clock = false
      /\ exists r l', l = (clock, EvGifts h r) :: l'
           /\ Trace env cfg (after_gifts cfg peer h r) l' ph).
Proof.
  intros H. inversion H as [|? ? ? ? ? Hs Ht]; subst; auto.
  inversion Hs; subst. right. eauto.
Qed.

(** A run whose timeline is cut at one of its events: the protocol is in
    some phase before the event, takes a step, and goes on to the phase
    of the outcome. *)
Lemma run_split fuel out w pre x post :
  run fuel env cfg = (out, w) ->
  timeline w = pre ++ x :: post ->
  exists s s' ph,
    Trace env cfg Starting pre s /\ Step env cfg s x s'
    /\ Trace env cfg s' post ph /\ final env out w ph.
Proof.
  intros Hrun Hcut.
  destruct (run_follows env cfg _ _ _ Hrun) as [[_ Hnil]|[ph [Ht Hf]]].
  { rewrite Hnil in Hcut. destruct pre; discriminate. }
  rewrite Hcut in Ht.
  destruct (Trace_app_inv env cfg _ _ _ _ Ht) as [s [H1 H2]].
  inversion H2 as [|? ? s' ? ? Hs Hrest]; subst.
  exists s, s', ph. auto.
Qed.

(** A run never ends in the middle of a step sequence. *)
Lemma final_not_Logging out w m next : ~ final env out w (Logging m next).
Proof.
  destruct out; simpl; intros H; break_final; discriminate.
Qed.

Lemma final_not_Waiting out w peer h : ~ final env out w (Waiting peer h).
Proof.
  destruct out; simpl; intros H; break_final; discriminate.
Qed.

Lemma final_Finished out w o : final env out w (Finished o) -> out = o.
Proof.
  destruct out; simpl; intros H; break_final;
    try discriminate; injection H; intros; subst; reflexivity.
Qed.

Lemma final_AtHead out w peer h clock :
  final env out w (AtHead peer h clock) ->
  now w = clock
  /\ (out = StillRunning \/ (out = Cancelled /\ stop_seen env clock = true)).
Proof.
  destruct out; simpl; intros H; try discriminate.
  - destruct H as [p [h' [H Hs]]]. injection H; intros; subst. auto.
  - destruct H as [p [h' H]]. injection H; intros; subst. auto.
Qed.

(** After a catalog answer that leads to [Waiting]: one wait of a poll
    interval, and then nothing, or the next catalog request with the
    token that [Waiting] carries. *)
Lemma wait_then_poll out w peer h post ph :
  Trace env cfg (Waiting peer h) post ph ->
  final env out w ph ->
  exists t' post',
    post = (t', EvSleep (poll_interval cfg)) :: post'
    /\ (post' = [] \/ exists t'' r post'', post' = (t'', EvGifts h r) :: post'').
Proof.
  intros Ht Hf.
  destruct (Trace_Waiting _ _ _ _ Ht) as [[_ ->]|[t' [post' [-> Hrest]]]].
  { exfalso. eapply final_not_Waiting; eauto. }
  exists t', post'. split; [reflexivity|].
  destruct (Trace_AtHead _ _ _ _ _ Hrest) as [[-> _]|[_ [r [l' [-> _]]]]]; eauto.
Qed.

End ProtocolFacts.

(* ------------------------------------------------------------------ *)
(** ** The continuation token and the quiet polls *)

(** C9.  In every run, a "not modified" catalog answer is followed by
    exactly one wait of one poll interval, with no balance read, payment
    form or payment in between; what follows the wait, if anything, is
    the next catalog request, sent with the very token of the request
    that was answered "not modified". *)
Theorem not_modified_waits_and_keeps_token :
  forall fuel env cfg out w pre t h post,
    run fuel env cfg = (out, w) ->
    timeline w = pre ++ (t, EvGifts h (Ok StarGiftsNotModified)) :: post ->
    exists t' post',
      post = (t', EvSleep (poll_interval cfg)) :: post'
      /\ (post' = []
          \/ exists t'' r post'', post' = (t'', EvGifts h r) :: post'').
Proof.
  intros fuel env cfg out w pre t h post Hrun Hcut.
  destruct (run_split env cfg _ _ _ _ _ _ Hrun Hcut)
    as [s [s' [ph [_ [Hs [Ht Hf]]]]]].
  inversion Hs; subst. cbn [after_gifts] in Ht.
  eapply wait_then_poll; eauto.
Qed.

Lemma not_modified_waits_and_keeps_token_witness :
  exists t' post',
    skipn 6 (timeline (snd (run 2 env_unchanged cfg0)))
    = (t', EvSleep (poll_interval cfg0)) :: post'
    /\ (post' = []
        \/ exists t'' r post'', post' = (t'', EvGifts 0 r) :: post'').
Proof.
  apply (not_modified_waits_and_keeps_token 2 env_unchanged cfg0
           (fst (run 2 env_unchanged cfg0)) (snd (run 2 env_unchanged cfg0))
           (firstn 5 (timeline (snd (run 2 env_unchanged cfg0)))) 3 0).
  - vm_compute. reflexivity.
  - vm_compute. reflexivity.
Defined.

(** C5, as stated, fails.  The catalog answers with an empty offer list
    and the token 7: the first request carries the initial token 0, the
    loop waits, and the next request carries 7, not 0. *)
Lemma empty_poll_changes_token :
  nth_error (timeline (snd (run 2 env_empty cfg0))) 5
    = Some (3, EvGifts 0 (Ok (StarGifts (Some 7) (Some []))))
  /\ nth_error (timeline (snd (run 2 env_empty cfg0))) 6
    = Some (4, EvSleep 15)
  /\ nth_error (timeline (snd (run 2 env_empty cfg0))) 7
    = Some (19, EvGifts 7 (Ok (StarGifts (Some 7) (Some [])))).
Proof. vm_compute. repeat split. Qed.

(** C5, amended.  In every run, a catalog answer whose offer list is
    empty is followed by exactly one wait of one poll interval, with no
    candidate evaluated; the token is taken from that answer all the
    same, so what follows the wait, if anything, is the next catalog
    request, sent with the hash of the empty answer (0 if it has none). *)
Theorem empty_catalog_waits_and_takes_token :
  forall fuel env cfg out w pre t h hash gifts post,
    run fuel env cfg = (out, w) ->
    timeline w = pre ++ (t, EvGifts h (Ok (StarGifts hash gifts))) :: post ->
    getattr gifts [] = [] ->
    exists t' post',
      post = (t', EvSleep (poll_interval cfg)) :: post'
      /\ (post' = []
          \/ exists t'' r post'',
               post' = (t'', EvGifts (or0 hash) r) :: post'').
Proof.
  intros fuel env cfg out w pre t h hash gifts post Hrun Hcut Hempty.
  destruct (run_split env cfg _ _ _ _ _ _ Hrun Hcut)
    as [s [s' [ph [_ [Hs [Ht Hf]]]]]].
  inversion Hs; subst. cbn [after_gifts] in Ht. rewrite Hempty in Ht.
  eapply wait_then_poll; eauto.
Qed.

Lemma empty_catalog_waits_and_takes_token_witness :
  exists t' post',
    skipn 6 (timeline (snd (run 2 env_empty cfg0)))
    = (t', EvSleep (poll_interval cfg0)) :: post'
    /\ (post' = []
        \/ exists t'' r post'', post' = (t'', EvGifts (or0 (Some 7)) r) :: post'').
Proof.
  apply (empty_catalog_waits_and_takes_token 2 env_empty cfg0
           (fst (run 2 env_empty cfg0)) (snd (run 2 env_empty cfg0))
           (firstn 5 (timeline (snd (run 2 env_empty cfg0)))) 3 0
           (Some 7) (Some [])).
  - vm_compute. reflexivity.
  - vm_compute. reflexivity.
  - reflexivity.
Defined.

(* ------------------------------------------------------------------ *)
(** ** One purchase per run *)

(** C2.  In every run, a payment that goes through is followed by the
    log line of the purchase and by nothing else, and the run has ended
    as [Purchased] whatever fuel was left: no catalog request, balance
    read, payment form or payment comes after it. *)
Theorem purchase_ends_run :
  forall fuel env cfg out w pre t fid peer gid u post,
    run fuel env cfg = (out, w) ->
    timeline w = pre ++ (t, EvSend fid peer gid (Ok u)) :: post ->
    out = Purchased
    /\ exists t' price, post = [(t', EvLog (LogBought gid price))].
Proof.
  intros fuel env cfg out w pre t fid peer gid u post Hrun Hcut.
  destruct (run_split env cfg _ _ _ _ _ _ Hrun Hcut)
    as [s [s' [ph [_ [Hs [Ht Hf]]]]]].
  inversion Hs; subst. cbn [after_send] in Ht.
  destruct (Trace_Logging _ _ _ _ _ _ Ht) as [[_ ->]|[t' [l' [-> Hrest]]]].
  { exfalso. eapply final_not_Logging; eauto. }
  destruct (Trace_Finished _ _ _ _ _ Hrest) as [-> ->].
  split; [eapply final_Finished; eauto | eauto].
Qed.

Lemma purchase_ends_run_witness :
  fst (run 5 env_two_offers cfg0) = Purchased
  /\ exists t' price,
       skipn 9 (timeline (snd (run 5 env_two_offers cfg0)))
       = [(t', EvLog (LogBought 1 price))].
Proof.
  apply (purchase_ends_run 5 env_two_offers cfg0
           (fst (run 5 env_two_offers cfg0)) (snd (run 5 env_two_offers cfg0))
           (firstn 8 (timeline (snd (run 5 env_two_offers cfg0))))
           6 1001 777 1 tt).
  - vm_compute. reflexivity.
  - vm_compute. reflexivity.
Defined.

(* ------------------------------------------------------------------ *)
(** ** The candidate list *)

Lemma insert_by_key_perm x l : Permutation (insert_by_key x l) (x :: l).
Proof.
  induction l as [|y l IH]; simpl; auto.
  destruct (Qle_bool (fst x) (fst y)); auto.
  rewrite IH. apply perm_swap.
Qed.

Lemma sort_by_key_perm l : Permutation (sort_by_key l) l.
Proof.
  induction l as [|x l IH]; simpl; auto.
  rewrite insert_by_key_perm. auto.
Qed.

Lemma collect_filter cfg gifts :
  collect cfg gifts = map priced (filter (qualifies cfg) gifts).
Proof.
  induction gifts as [|g l IH]; simpl; auto.
  destruct (qualifies cfg g); simpl; rewrite IH; reflexivity.
Qed.

Lemma candidates_genuine cfg gifts : Forall (genuine cfg) (candidates cfg gifts).
Proof.
  unfold candidates.
  eapply Permutation_Forall; [symmetry; apply sort_by_key_perm|].
  rewrite collect_filter. apply Forall_forall. intros c Hc.
  apply in_map_iff in Hc. destruct Hc as [g [<- Hg]].
  apply filter_In in Hg. split; [reflexivity | apply Hg].
Qed.

(* ------------------------------------------------------------------ *)
(** ** Every purchase attempt is gated by a fresh balance *)

Section Gating.

Variable env : Env.
Variable cfg : RunConfig.

Lemma Step_carried s e s' :
  Step env cfg s e s' ->
  Forall (genuine cfg) (carried s) -> Forall (genuine cfg) (carried s').
Proof.
  intros Hs Hc. destruct Hs; simpl in *; auto.
  - destruct r as [status|[| |code]]; simpl; auto.
  - destruct r; simpl; auto.
  - destruct next; simpl in *; auto; try contradiction.
  - destruct r as [[|hash gifts]|err]; simpl; auto.
    destruct (getattr gifts []) eqn:Hg; simpl; auto.
    apply candidates_genuine.
  - inversion Hc; subst.
    destruct r as [status|err]; simpl; auto.
    destruct (Qltb (balance_of status) (fst cand)); simpl; auto.
  - inversion Hc; subst.
    destruct r as [form|err]; simpl; auto.
    destruct (stars_form form); simpl; auto.
  - inversion Hc; subst.
    destruct r as [u|err]; simpl; auto.
Qed.

Lemma Trace_carried s l s' :
  Trace env cfg s l s' ->
  Forall (genuine cfg) (carried s) -> Forall (genuine cfg) (carried s').
Proof.
  induction 1; auto. intros Hc. apply IHTrace. eapply Step_carried; eauto.
Qed.

Lemma Trace_snoc_inv a l c :
  Trace env cfg a l c ->
  (l = [] /\ a = c)
  \/ exists l' e b, l = l' ++ [e] /\ Trace env cfg a l' b /\ Step env cfg b e c.
Proof.
  induction 1 as [|ph e mid l ph' Hs Ht IH]; auto.
  right. destruct IH as [[-> ->]|[l' [e' [b [-> [Ht' Hs']]]]]].
  - exists [], e, ph. repeat split; [constructor | assumption].
  - exists (e :: l'), e', b. repeat split; [econstructor; eauto | assumption].
Qed.

(** [Paying] is entered by a successful balance read, and by nothing
    else. *)
Lemma Step_into_Paying s e peer h rest cand status :
  Step env cfg s e (Paying peer h rest cand status) ->
  exists t, e = (t, EvStatus (Ok status))
    /\ Qltb (balance_of status) (fst cand) = false.
Proof.
  intros Hs. remember (Paying peer h rest cand status) as target eqn:Heq.
  destruct Hs; try discriminate.
  - destruct r as [st|[| |code]]; discriminate.
  - destruct r; discriminate.
  - subst next. contradiction.
  - destruct r as [[|hash gifts]|err]; simpl in Heq; try discriminate.
    destruct (getattr gifts []); discriminate.
  - destruct r as [st|err]; simpl in Heq; try discriminate.
    destruct (Qltb (balance_of st) (fst cand0)) eqn:Hlt; try discriminate.
    injection Heq; intros; subst. eauto.
  - destruct r as [form|err]; simpl in Heq; try discriminate.
    destruct (stars_form form); discriminate.
  - destruct r; discriminate.
Qed.

(** The candidates of a batch are offers of the catalog answer that the
    batch was made from. *)
Lemma candidates_from gifts c :
  In c (candidates cfg gifts) -> In (snd c) gifts.
Proof.
  unfold candidates. intros Hc.
  apply (Permutation_in _ (sort_by_key_perm _)) in Hc.
  rewrite collect_filter in Hc. apply in_map_iff in Hc.
  destruct Hc as [g [<- Hg]]. apply filter_In in Hg. apply Hg.
Qed.

Lemma Step_catalog gs s e s' :
  Step env cfg s e s' ->
  Forall (fun c => In (snd c) gs) (carried s) ->
  Forall (fun c => In (snd c) (catalog_step gs e)) (carried s').
Proof.
  intros Hs Hc. destruct Hs; unfold catalog_step; simpl in *; auto.
  - destruct r as [status|[| |code]]; simpl; auto.
  - destruct r; simpl; auto.
  - destruct next; simpl in *; auto; try contradiction.
  - destruct r as [[|hash gifts]|err]; simpl; auto.
    destruct (getattr gifts []) eqn:Hg; simpl; auto.
    apply Forall_forall. intros c Hin.
    exact (candidates_from (g :: l) c Hin).
  - inversion Hc; subst.
    destruct r as [status|err]; simpl; auto.
    destruct (Qltb (balance_of status) (fst cand)); simpl; auto.
  - inversion Hc; subst.
    destruct r as [form|err]; simpl; auto.
    destruct (stars_form form); simpl; auto.
  - inversion Hc; subst.
    destruct r as [u|err]; simpl; auto.
Qed.

Lemma Trace_catalog s l s' :
  Trace env cfg s l s' ->
  forall gs,
    Forall (fun c => In (snd c) gs) (carried s) ->
    Forall (fun c => In (snd c) (fold_left catalog_step l gs)) (carried s').
Proof.
  induction 1 as [|ph e mid l ph' Hs Ht IH]; intros gs Hc; [exact Hc|].
  cbn [fold_left]. apply IH. eapply Step_catalog; eauto.
Qed.

End Gating.

(** Offers with distinct ids are told apart by their id. *)
Lemma same_id_same_offer (gs : list Gift) a b :
  NoDup (map gift_id gs) ->
  In a gs -> In b gs -> gift_id a = gift_id b -> a = b.
Proof.
  induction gs as [|g l IH]; intros Hnd Ha Hb Hid; [contradiction|].
  cbn [map] in Hnd. inversion Hnd as [|x xs Hnotin Hnd']; subst.
  destruct Ha as [->|Ha]; destruct Hb as [->|Hb]; auto.
  - exfalso. apply Hnotin. rewrite Hid. apply in_map. exact Hb.
  - exfalso. apply Hnotin. rewrite <- Hid. apply in_map. exact Ha.
Qed.

(** C8.  In every run, the event just before a payment-form request (the
    start of a purchase attempt) is a successful balance read.  The
    request is for an offer of the latest catalog answer, one that
    qualified there, and the balance of that very read is not below the
    price of that offer.  When the offers of that answer have distinct
    ids, the offer is the one that has the requested id: its price,
    whatever else the catalog holds, is covered by the balance just
    read. *)
Theorem balance_read_gates_each_purchase :
  forall fuel env cfg out w pre t peer gid r post,
    run fuel env cfg = (out, w) ->
    timeline w = pre ++ (t, EvForm peer gid r) :: post ->
    exists pre' t' status offer,
      pre = pre' ++ [(t', EvStatus (Ok status))]
      /\ In offer (latest_gifts pre)
      /\ gift_id offer = gid
      /\ qualifies cfg offer = true
      /\ Qltb (balance_of status) (price_of offer) = false
      /\ (NoDup (map gift_id (latest_gifts pre)) ->
          forall o, In o (latest_gifts pre) -> gift_id o = gid ->
                    qualifies cfg o = true
                    /\ (price_of o <= balance_of status)%Q).
Proof.
  intros fuel env cfg out w pre t peer gid r post Hrun Hcut.
  destruct (run_split env cfg _ _ _ _ _ _ Hrun Hcut)
    as [s [s' [ph [Hpre [Hs _]]]]].
  inversion Hs as [ | | | | | | | | | | t0 p h rest cand status r0 Hlt | ]; subst.
  assert (Hgen : Forall (genuine cfg) (carried (Paying peer h rest cand status))).
  { eapply Trace_carried; [eassumption | constructor]. }
  assert (Hcat : Forall (fun c => In (snd c) (latest_gifts pre))
                   (carried (Paying peer h rest cand status))).
  { apply (Trace_catalog env cfg _ _ _ Hpre []). constructor. }
  inversion Hgen as [|c l [Hpriced Hq] _]; subst.
  inversion Hcat as [|c l Hin _]; subst.
  destruct (Trace_snoc_inv _ _ _ _ _ Hpre) as [[_ Habs]|[pre' [e [b [-> [_ Hlast]]]]]].
  { discriminate. }
  destruct (Step_into_Paying _ _ _ _ _ _ _ _ _ Hlast) as [t' [-> _]].
  assert (Hprice : fst cand = price_of (snd cand)).
  { rewrite Hpriced at 1. reflexivity. }
  assert (Hle : (price_of (snd cand) <= balance_of status)%Q).
  { unfold Qltb in Hlt. apply negb_false_iff in Hlt.
    apply Qle_bool_iff in Hlt. rewrite <- Hprice. exact Hlt. }
  exists pre', t', status, (snd cand).
  split; [reflexivity|]. split; [exact Hin|]. split; [reflexivity|].
  split; [exact Hq|]. split; [rewrite <- Hprice; exact Hlt|].
  intros Hnd o Ho Hid.
  rewrite (same_id_same_offer _ o (snd cand) Hnd Ho Hin Hid). auto.
Qed.

Lemma balance_read_gates_each_purchase_witness :
  exists pre' t' status offer,
    firstn 7 (timeline (snd (run 5 env_two_offers cfg0)))
    = pre' ++ [(t', EvStatus (Ok status))]
    /\ In offer (latest_gifts (firstn 7 (timeline (snd (run 5 env_two_offers cfg0)))))
    /\ gift_id offer = 1
    /\ qualifies cfg0 offer = true
    /\ Qltb (balance_of status) (price_of offer) = false
    /\ (NoDup (map gift_id
                 (latest_gifts
                    (firstn 7 (timeline (snd (run 5 env_two_offers cfg0)))))) ->
        forall o,
          In o (latest_gifts
                  (firstn 7 (timeline (snd (run 5 env_two_offers cfg0))))) ->
          gift_id o = 1 ->
          qualifies cfg0 o = true /\ (price_of o <= balance_of status)%Q).
Proof.
  apply (balance_read_gates_each_purchase 5 env_two_offers cfg0
           (fst (run 5 env_two_offers cfg0)) (snd (run 5 env_two_offers cfg0))
           (firstn 7 (timeline (snd (run 5 env_two_offers cfg0))))
           5 777 1 (Ok (PaymentFormStarGift 1001))
           (skipn 8 (timeline (snd (run 5 env_two_offers cfg0))))).
  - vm_compute. reflexivity.
  - vm_compute. reflexivity.
Defined.

(** The catalog that the attempt of the run above is checked against is
    the list of the two offers, whose ids are distinct. *)
Example attempt_is_checked_against_the_catalog :
  latest_gifts (firstn 7 (timeline (snd (run 5 env_two_offers cfg0))))
  = two_offers
  /\ NoDup (map gift_id two_offers).
Proof.
  split; [vm_compute; reflexivity|].
  repeat constructor; simpl; intuition discriminate.
Qed.

(* ------------------------------------------------------------------ *)
(** ** Cancellation and the poll-interval wait *)

Section Fuel.

Variable env : Env.
Variable cfg : RunConfig.

(** Once the loop has stopped at its head with the stop event set, more
    fuel changes nothing but the name of the outcome. *)
Lemma poll_cancelled_with_more_fuel peer : forall fuel h w out w',
  poll fuel env cfg peer h w = (out, w') ->
  out = StillRunning \/ out = Cancelled ->
  is_set env w' = true ->
  forall fuel', (fuel < fuel')%nat ->
    poll fuel' env cfg peer h w = (Cancelled, w').
Proof.
  induction fuel as [|fuel IH]; intros h w out w' Hp Hout Hset fuel' Hlt.
  - cbn [poll] in Hp. inversion Hp; subst.
    destruct fuel' as [|k]; [lia|]. cbn [poll]. rewrite Hset. reflexivity.
  - destruct fuel' as [|k]; [lia|].
    assert (Hk : (fuel < k)%nat) by lia.
    cbn [poll] in Hp |- *.
    destruct (is_set env w) eqn:Hw.
    { inversion Hp; subst. reflexivity. }
    destruct (GetStarGiftsRequest env h w) as [[[|hash gifts]|e] w1].
    + eapply IH; eauto.
    + destruct (getattr gifts []) as [|g l].
      * eapply IH; eauto.
      * destruct (buy env peer (candidates cfg (g :: l)) w1) as [[|e|] w2].
        -- inversion Hp; subst. destruct Hout; discriminate.
        -- inversion Hp; subst. destruct Hout; discriminate.
        -- eapply IH; eauto.
    + eapply IH; eauto.
Qed.

Lemma run_cancelled_with_more_fuel fuel out w :
  run fuel env cfg = (out, w) ->
  out = StillRunning \/ out = Cancelled ->
  is_set env w = true ->
  forall fuel', (fuel < fuel')%nat -> run fuel' env cfg = (Cancelled, w).
Proof.
  unfold run. intros Hrun Hout Hset fuel' Hlt.
  destruct ((API_ID env =? 0) || (API_HASH env =? "")%string).
  { inversion Hrun; subst. destruct Hout; discriminate. }
  destruct (GetStarsStatusRequest env (connect env (session cfg) start_world))
    as [[status|e] w1].
  - destruct (GetInputEntity env (recipient cfg)
                (say (LogBalance (balance_of status)) w1)) as [[peer|e] w3].
    + eapply poll_cancelled_with_more_fuel; eauto.
    + inversion Hrun; subst. destruct Hout; discriminate.
  - destruct e; inversion Hrun; subst; destruct Hout; discriminate.
Qed.

End Fuel.

(** C3, as stated, fails.  The catalog is unchanged and the poll interval
    is 15.  The wait starts at time 4.  With a stop requested at time 9,
    in the middle of the wait, the run ends at time 19: the wait was not
    cut short.  With a stop requested at time 4, as the wait starts, the
    run ends a full poll interval after the request. *)
Lemma wait_is_not_interrupted :
  run 3 (env_stopped_at 9) cfg0
  = (Cancelled, snd (run 1 (env_stopped_at 9) cfg0))
  /\ last (timeline (snd (run 3 (env_stopped_at 9) cfg0))) (0, EvSleep 0)
     = (4, EvSleep 15)
  /\ now (snd (run 3 (env_stopped_at 9) cfg0)) = 19
  /\ fst (run 3 (env_stopped_at 4) cfg0) = Cancelled
  /\ last (timeline (snd (run 3 (env_stopped_at 4) cfg0))) (0, EvSleep 0)
     = (4, EvSleep 15)
  /\ now (snd (run 3 (env_stopped_at 4) cfg0)) - 4 = poll_interval cfg0.
Proof. vm_compute. repeat split. Qed.

(** C3, amended.  In every run, a wait during which the stop is requested
    is a wait of one poll interval that runs to its end; it is the last
    thing the run does: the loop test that follows sees the stop event
    and the run ends as [Cancelled] (given fuel for that test), with no
    further catalog request, balance read or purchase attempt.  The time
    between the request and the end of the run is what was left of the
    wait, at most one poll interval. *)
Theorem stop_during_wait_ends_run_after_wait :
  forall fuel env cfg out w pre t0 d post ts,
    run fuel env cfg = (out, w) ->
    timeline w = pre ++ (t0, EvSleep d) :: post ->
    stop_at env = Some ts ->
    t0 <= ts <= t0 + Z.max 0 d ->
    d = poll_interval cfg
    /\ post = []
    /\ now w = t0 + Z.max 0 (poll_interval cfg)
    /\ 0 <= now w - ts <= Z.max 0 (poll_interval cfg)
    /\ forall fuel', (fuel < fuel')%nat -> run fuel' env cfg = (Cancelled, w).
Proof.
  intros fuel env cfg out w pre t0 d post ts Hrun Hcut Hstop Hduring.
  destruct (run_split env cfg _ _ _ _ _ _ Hrun Hcut)
    as [s [s' [ph [_ [Hs [Ht Hf]]]]]].
  assert (Hseen : stop_seen env (t0 + Z.max 0 d) = true).
  { unfold stop_seen. rewrite Hstop. apply Z.leb_le. lia. }
  assert (Hhead : d = poll_interval cfg
                  /\ exists peer h, s' = AtHead peer h (t0 + Z.max 0 d)).
  { inversion Hs; subst; eauto. }
  destruct Hhead as [Hd [peer [h ->]]].
  destruct (Trace_AtHead _ _ _ _ _ _ _ Ht) as [[-> ->]|[Hno _]].
  2:{ rewrite Hseen in Hno. discriminate. }
  destruct (final_AtHead _ _ _ _ _ _ Hf) as [Hnow Hout].
  subst d. repeat split; auto; try lia.
  intros fuel' Hlt.
  eapply run_cancelled_with_more_fuel; eauto.
  - destruct Hout as [->|[-> _]]; auto.
  - unfold is_set. rewrite Hnow. exact Hseen.
Qed.

Lemma stop_during_wait_ends_run_after_wait_witness :
  poll_interval cfg0 = poll_interval cfg0
  /\ skipn 7 (timeline (snd (run 1 (env_stopped_at 9) cfg0))) = []
  /\ now (snd (run 1 (env_stopped_at 9) cfg0)) = 4 + Z.max 0 (poll_interval cfg0)
  /\ 0 <= now (snd (run 1 (env_stopped_at 9) cfg0)) - 9
       <= Z.max 0 (poll_interval cfg0)
  /\ forall fuel', (1 < fuel')%nat ->
       run fuel' (env_stopped_at 9) cfg0
       = (Cancelled, snd (run 1 (env_stopped_at 9) cfg0)).
Proof.
  apply (stop_during_wait_ends_run_after_wait 1 (env_stopped_at 9) cfg0
           (fst (run 1 (env_stopped_at 9) cfg0))
           (snd (run 1 (env_stopped_at 9) cfg0))
           (firstn 6 (timeline (snd (run 1 (env_stopped_at 9) cfg0))))
           4 (poll_interval cfg0)
           (skipn 7 (timeline (snd (run 1 (env_stopped_at 9) cfg0)))) 9).
  - vm_compute. reflexivity.
  - vm_compute. reflexivity.
  - reflexivity.
  - vm_compute. split; discriminate.
Defined.

(* ------------------------------------------------------------------ *)
(** ** The offer evaluator *)

Lemma qualifies_eligibleb cfg g :
  qualifies cfg g = offer_eligibleb (max_price_stars cfg) g.
Proof.
  unfold qualifies, offer_eligibleb, offer_limited, offer_sold_out,
    offer_remaining, remains_ok.
  destruct (getattr (limited g) false), (getattr (sold_out g) false);
    reflexivity.
Qed.

Lemma eligibleb_spec ceiling g :
  offer_eligibleb ceiling g = true <-> offer_eligible ceiling g.
Proof.
  unfold offer_eligibleb, offer_eligible.
  rewrite !andb_true_iff, Qle_bool_iff.
  destruct (offer_limited g), (offer_sold_out g); simpl;
    destruct (offer_remaining g) as [r|]; simpl;
    try rewrite Z.ltb_lt; split; intros H;
    repeat match goal with
           | H : _ /\ _ |- _ => destruct H
           | H : _ \/ _ |- _ => destruct H
           | H : exists _, _ |- _ => destruct H
           | H : Some _ = Some _ |- _ => injection H; intros; subst; clear H
           end;
    try discriminate; repeat split; eauto.
Qed.

Lemma insert_by_key_sorted x l :
  StronglySorted price_le l -> StronglySorted price_le (insert_by_key x l).
Proof.
  induction 1 as [|y l Hl IH Hy]; simpl.
  - repeat constructor.
  - destruct (Qle_bool (fst x) (fst y)) eqn:Hxy.
    + apply Qle_bool_iff in Hxy.
      constructor; [constructor; assumption|].
      constructor; [exact Hxy|].
      eapply Forall_impl; [|exact Hy].
      intros c Hc. unfold price_le in *. eapply Qle_trans; eauto.
    + constructor; [exact IH|].
      eapply Permutation_Forall; [symmetry; apply insert_by_key_perm|].
      constructor; [|exact Hy].
      unfold price_le. apply Qlt_le_weak. apply Qnot_le_lt.
      intros Hle. apply Qle_bool_iff in Hle. congruence.
Qed.

Lemma sort_by_key_sorted l : StronglySorted price_le (sort_by_key l).
Proof.
  induction l as [|x l IH]; simpl; [constructor|].
  apply insert_by_key_sorted. exact IH.
Qed.

(** Insertion never moves an entry past another entry of the same
    price. *)
Lemma insert_by_key_stable p x l :
  filter (at_price p) (insert_by_key x l) = filter (at_price p) (x :: l).
Proof.
  induction l as [|y l IH]; [reflexivity|].
  cbn [insert_by_key].
  destruct (Qle_bool (fst x) (fst y)) eqn:Hxy; [reflexivity|].
  cbn [filter] in *. rewrite IH.
  destruct (at_price p y) eqn:Hy, (at_price p x) eqn:Hx; try reflexivity.
  exfalso. unfold at_price in *.
  apply Qeq_bool_iff in Hx, Hy.
  assert (Hle : (fst x <= fst y)%Q) by (rewrite Hx, Hy; apply Qle_refl).
  apply Qle_bool_iff in Hle. congruence.
Qed.

Lemma sort_by_key_stable p l :
  filter (at_price p) (sort_by_key l) = filter (at_price p) l.
Proof.
  induction l as [|x l IH]; [reflexivity|].
  cbn [sort_by_key]. rewrite insert_by_key_stable.
  cbn [filter]. rewrite IH. reflexivity.
Qed.

Lemma filter_ext_qualifies cfg gifts :
  filter (qualifies cfg) gifts
  = filter (offer_eligibleb (max_price_stars cfg)) gifts.
Proof.
  apply filter_ext. intros g. apply qualifies_eligibleb.
Qed.

(** C1.  For every catalog and every price ceiling, the candidate list is
    made of exactly the offers of the catalog that satisfy the
    eligibility predicate (limited, not sold out, remaining absent or
    positive, price at most the ceiling), each paired with its price; it
    is ascending by price; and the offers of any one price appear in
    their catalog order. *)
Theorem evaluator_filters_and_sorts_stably :
  forall cfg gifts,
    let ceiling := max_price_stars cfg in
    let eligible := filter (offer_eligibleb ceiling) gifts in
    (forall g, In g eligible <-> In g gifts /\ offer_eligible ceiling g)
    /\ Permutation (candidates cfg gifts) (map priced eligible)
    /\ StronglySorted price_le (candidates cfg gifts)
    /\ (forall p, filter (at_price p) (candidates cfg gifts)
                  = filter (at_price p) (map priced eligible)).
Proof.
  intros cfg gifts ceiling eligible. unfold eligible, ceiling, candidates.
  rewrite collect_filter, filter_ext_qualifies.
  split; [|split; [|split]].
  - intros g. rewrite filter_In, eligibleb_spec. reflexivity.
  - apply sort_by_key_perm.
  - apply sort_by_key_sorted.
  - intros p. apply sort_by_key_stable.
Qed.

(* ------------------------------------------------------------------ *)
(** ** The comparisons at the boundary *)

Section HeadOfBatch.

Variable env : Env.
Variable peer : InputPeer.

Lemma buy_extends : forall cands w,
  exists tail, timeline (snd (buy env peer cands w)) = timeline w ++ tail.
Proof.
  assert (Hmore : forall (w w' : World) (added : list Entry) (res : ForExit * World),
            timeline w' = timeline w ++ added ->
            (exists tail, timeline (snd res) = timeline w' ++ tail) ->
            exists tail, timeline (snd res) = timeline w ++ tail).
  { intros w w' added res Hw [tail Ht]. exists (added ++ tail).
    rewrite Ht, Hw, app_assoc. reflexivity. }
  induction cands as [|[price offer] rest IH]; intros w; cbn [buy].
  - exists []. rewrite app_nil_r. reflexivity.
  - destruct (is_set env w).
    { exists []. rewrite app_nil_r. reflexivity. }
    unfold GetStarsStatusRequest, GetPaymentFormRequest, SendStarsFormRequest.
    cbv beta iota zeta.
    destruct (get_stars_status env (awaits w)) as [status|e].
    2:{ eexists. reflexivity. }
    destruct (Qltb (balance_of status) price).
    { eapply Hmore; [|apply IH]. cbn [timeline say await].
      rewrite <- app_assoc. reflexivity. }
    match goal with
    | |- context [match ?r with Ok _ => _ | Raise _ => _ end] =>
        destruct r as [form|e]
    end.
    2:{ eapply Hmore; [|apply IH]. cbn [timeline say await].
        rewrite <- !app_assoc. reflexivity. }
    destruct (stars_form form) as [fid|].
    2:{ eapply Hmore; [|apply IH]. cbn [timeline say await].
        rewrite <- !app_assoc. reflexivity. }
    match goal with
    | |- context [match ?r with Ok _ => _ | Raise _ => _ end] =>
        destruct r as [u|e]
    end.
    + cbn [snd timeline say await]. rewrite <- !app_assoc. eexists. reflexivity.
    + eapply Hmore; [|apply IH]. cbn [timeline say await].
      rewrite <- !app_assoc. reflexivity.
Qed.

(** The head of a batch, with the stop event clear and a balance read
    that succeeds: a balance that is not smaller than the price leads
    straight to the payment-form request for that offer. *)
Lemma buy_head_affordable price offer rest w status :
  is_set env w = false ->
  get_stars_status env (awaits w) = Ok status ->
  Qltb (balance_of status) price = false ->
  exists r tail,
    timeline (snd (buy env peer ((price, offer) :: rest) w))
    = timeline w ++ (now w, EvStatus (Ok status))
        :: (now w + network env w, EvForm peer (gift_id offer) r) :: tail.
Proof.
  intros Hset Hst Hlt. cbn [buy]. rewrite Hset.
  unfold GetStarsStatusRequest. rewrite Hst. cbv beta iota zeta. rewrite Hlt.
  set (w1 := await (EvStatus (Ok status)) (network env w) w).
  destruct (buy_extends [(price, offer)] w) as [_ _].
  unfold GetPaymentFormRequest, SendStarsFormRequest. cbv beta iota zeta.
  set (r := get_payment_form env (awaits w1) peer (gift_id offer)).
  set (w2 := await (EvForm peer (gift_id offer) r) (network env w1) w1).
  exists r.
  assert (Hw2 : timeline w2
                = timeline w ++ [(now w, EvStatus (Ok status));
                                 (now w + network env w,
                                  EvForm peer (gift_id offer) r)]).
  { unfold w2, w1. cbn [timeline await now]. rewrite <- app_assoc. reflexivity. }
  assert (Hgo : forall res : ForExit * World,
            (exists tail, timeline (snd res) = timeline w2 ++ tail) ->
            exists tail,
              timeline (snd res)
              = timeline w ++ (now w, EvStatus (Ok status))
                  :: (now w + network env w, EvForm peer (gift_id offer) r)
                  :: tail).
  { intros res [tail Ht]. exists tail. rewrite Ht, Hw2, <- app_assoc.
    reflexivity. }
  apply Hgo. clearbody r w2. clear Hgo Hw2.
  destruct r as [form|e].
  2:{ destruct (buy_extends rest (say (LogFormError e) w2)) as [tail Ht].
      exists ((now w2, EvLog (LogFormError e)) :: tail).
      rewrite Ht. cbn [timeline say]. rewrite <- app_assoc. reflexivity. }
  destruct (stars_form form) as [fid|].
  2:{ destruct (buy_extends rest (say (LogUnexpectedForm form) w2)) as [tail Ht].
      exists ((now w2, EvLog (LogUnexpectedForm form)) :: tail).
      rewrite Ht. cbn [timeline say]. rewrite <- app_assoc. reflexivity. }
  destruct (send_stars_form env (awaits w2) fid peer (gift_id offer)) as [u|e].
  - eexists. cbn [snd timeline say await]. rewrite <- app_assoc. reflexivity.
  - match goal with
    | |- context [buy env peer rest ?w3] =>
        destruct (buy_extends rest w3) as [tail Ht]; rewrite Ht
    end.
    eexists. cbn [timeline say await]. rewrite <- !app_assoc. reflexivity.
Qed.

(** The same head with a balance smaller than the price: the offer is
    skipped with a log line, and no payment form is asked for it. *)
Lemma buy_head_short price offer rest w status :
  is_set env w = false ->
  get_stars_status env (awaits w) = Ok status ->
  Qltb (balance_of status) price = true ->
  buy env peer ((price, offer) :: rest) w
  = buy env peer rest
      (say (LogSkip (balance_of status) price)
         (await (EvStatus (Ok status)) (network env w) w)).
Proof.
  intros Hset Hst Hlt. cbn [buy]. rewrite Hset.
  unfold GetStarsStatusRequest. rewrite Hst. cbv beta iota zeta. rewrite Hlt.
  reflexivity.
Qed.

End HeadOfBatch.

(** *** Where the normalization is exact *)

(** A quotient that comes out whole is not rounded. *)
Lemma round_half_even_exact n d :
  0 < d -> (d | n) -> round_half_even n d = n / d.
Proof.
  intros Hd Hdiv. unfold round_half_even.
  apply Z.mod_divide in Hdiv; try lia. rewrite Hdiv.
  cbn [Z.mul]. destruct (Z.compare_spec 0 d); lia.
Qed.

(** A whole number of magnitude at most [2^53] is a [float]: rounding
    leaves it as it is, in whatever scaling it is written. *)
Lemma round_double_scaled a j :
  a <> 0 -> Z.abs a <= 2 ^ 53 -> 0 <= j ->
  exists j', 0 <= j'
    /\ round_double (Qmake (a * 2 ^ j) (Z.to_pos (2 ^ j)))
       = Qmake (a * 2 ^ j') (Z.to_pos (2 ^ j')).
Proof.
  intros Ha Hb Hj.
  assert (Hpj : 0 < 2 ^ j) by (apply Z.pow_pos_nonneg; lia).
  assert (Habs : 0 < Z.abs a) by lia.
  set (L := Z.log2 (Z.abs a)).
  assert (HL : 0 <= L) by apply Z.log2_nonneg.
  assert (HL53 : L <= 53).
  { unfold L. change 53 with (Z.log2 (2 ^ 53)). apply Z.log2_le_mono. exact Hb. }
  destruct (Z.log2_spec (Z.abs a) Habs) as [Hlo Hhi]. fold L in Hlo, Hhi.
  unfold round_double. cbn [Qnum Qden].
  rewrite Z2Pos.id by exact Hpj.
  assert (Hn : (a * 2 ^ j =? 0) = false) by (apply Z.eqb_neq; nia).
  rewrite Hn.
  rewrite Z.abs_mul, (Z.abs_eq (2 ^ j)) by lia.
  rewrite Z.log2_mul_pow2 by lia. rewrite Z.log2_pow2 by lia. fold L.
  replace (j + L - j) with L by lia.
  assert (H0L : (0 <=? L) = true) by (apply Z.leb_le; lia). rewrite H0L.
  assert (Hc : (2 ^ j * 2 ^ L <=? Z.abs a * 2 ^ j) = true).
  { apply Z.leb_le. nia. }
  rewrite Hc.
  assert (Hsgn : Z.sgn (a * 2 ^ j) = Z.sgn a).
  { rewrite Z.sgn_mul. rewrite (Z.sgn_pos (2 ^ j)) by lia. lia. }
  rewrite Hsgn.
  destruct (0 <=? L - 52) eqn:He.
  - apply Z.leb_le in He. exists 0. split; [lia|].
    assert (Hdiv : (2 ^ (L - 52) | Z.abs a)).
    { assert (L = 52 \/ L = 53) as [->| ->] by lia.
      - replace (52 - 52) with 0 by lia. apply Z.divide_1_l.
      - assert (Z.abs a = 2 ^ 53) as -> by lia.
        exists (2 ^ 52). reflexivity. }
    assert (Hpe : 0 < 2 ^ (L - 52)) by (apply Z.pow_pos_nonneg; lia).
    rewrite round_half_even_exact.
    + destruct Hdiv as [q Hq]. rewrite Hq.
      replace (q * 2 ^ (L - 52) * 2 ^ j) with (q * (2 ^ j * 2 ^ (L - 52))) by ring.
      rewrite Z.div_mul by nia.
      unfold inject_Z. f_equal.
      rewrite <- Z.mul_assoc, <- Hq. destruct a; simpl; lia.
    + nia.
    + destruct Hdiv as [q Hq]. exists q. rewrite Hq. ring.
  - apply Z.leb_gt in He. exists (- (L - 52)). split; [lia|].
    assert (Hpe : 0 < 2 ^ (- (L - 52))) by (apply Z.pow_pos_nonneg; lia).
    rewrite round_half_even_exact.
    + replace (Z.abs a * 2 ^ j * 2 ^ (- (L - 52)))
        with (Z.abs a * 2 ^ (- (L - 52)) * 2 ^ j) by ring.
      rewrite Z.div_mul by lia.
      f_equal. rewrite Z.mul_assoc. f_equal. destruct a; simpl; lia.
    + lia.
    + exists (Z.abs a * 2 ^ (- (L - 52))). ring.
Qed.

(** The normalization of line 30 is exact on a whole amount of
    magnitude at most [2^53] that comes without nanos. *)
Lemma whole_amount_is_exact a nanos :
  Z.abs a <= 2 ^ 53 -> or0 nanos = 0 ->
  (stars_value (PyAmount (Some a) nanos) == inject_Z a)%Q.
Proof.
  intros Hb Hn. unfold stars_value. cbn [or0]. rewrite Hn.
  change (round_double (inject_Z 0 / inject_Z 1000000000)) with (inject_Z 0).
  destruct (Z.eq_dec a 0) as [->|Ha]; [vm_compute; reflexivity|].
  destruct (round_double_scaled a 0 Ha Hb (Z.le_refl 0)) as [j1 [Hj1 E1]].
  assert (E0 : round_double (inject_Z a)
               = Qmake (a * 2 ^ j1) (Z.to_pos (2 ^ j1))).
  { rewrite <- E1. unfold inject_Z. f_equal. f_equal. cbn. lia. }
  rewrite E0. unfold Qplus, inject_Z. cbn [Qnum Qden].
  replace (a * 2 ^ j1 * 1 + 0 * Z.pos (Z.to_pos (2 ^ j1))) with (a * 2 ^ j1)
    by ring.
  rewrite Pos.mul_1_r.
  destruct (round_double_scaled a j1 Ha Hb Hj1) as [j2 [Hj2 E2]].
  rewrite E2. unfold Qeq. cbn [Qnum Qden].
  rewrite Z2Pos.id by (apply Z.pow_pos_nonneg; lia). ring.
Qed.

(** C7.  For an offer whose flags allow it: a price equal to the ceiling
    qualifies and a price one above the ceiling does not.  For the
    candidate at the head of a batch: a balance equal to its price leads
    to the payment-form request for it, and a balance one below its price
    makes the loop skip it with a log line and go on to the next
    candidate.  All four comparisons are made on the normalized
    quantities that [stars_value] returns: the balance that is compared
    is the [float] of line 30 when the status carries an amount object,
    so "equal to" and "one below" are about that [float], not about the
    amount it was made from.  The two are the same when the status
    carries a whole amount of magnitude at most [2^53] without nanos. *)
Theorem boundary_comparisons :
  forall cfg env peer offer rest w status,
    offer_limited offer = true ->
    offer_sold_out offer = false ->
    remains_ok (offer_remaining offer) = true ->
    is_set env w = false ->
    get_stars_status env (awaits w) = Ok status ->
    ((price_of offer == inject_Z (max_price_stars cfg))%Q ->
       qualifies cfg offer = true)
    /\ ((price_of offer == inject_Z (max_price_stars cfg + 1))%Q ->
         qualifies cfg offer = false)
    /\ ((balance_of status == price_of offer)%Q ->
         exists r tail,
           timeline (snd (buy env peer (priced offer :: rest) w))
           = timeline w ++ (now w, EvStatus (Ok status))
               :: (now w + network env w, EvForm peer (gift_id offer) r)
               :: tail)
    /\ ((balance_of status == price_of offer - inject_Z 1)%Q ->
         buy env peer (priced offer :: rest) w
         = buy env peer rest
             (say (LogSkip (balance_of status) (price_of offer))
                (await (EvStatus (Ok status)) (network env w) w)))
    /\ (forall a nanos,
          balance status = Some (PyAmount (Some a) nanos) ->
          or0 nanos = 0 -> Z.abs a <= 2 ^ 53 ->
          (balance_of status == inject_Z a)%Q).
Proof.
  intros cfg env peer offer rest w status Hlim Hsold Hrem Hset Hst.
  unfold offer_limited, offer_sold_out, offer_remaining in *.
  split; [|split; [|split; [|split]]].
  - intros Hp. unfold qualifies. rewrite Hlim, Hsold, Hrem. simpl.
    apply Qle_bool_iff. rewrite Hp. apply Qle_refl.
  - intros Hp. unfold qualifies. rewrite Hlim, Hsold, Hrem. simpl.
    destruct (Qle_bool (price_of offer) (inject_Z (max_price_stars cfg)))
      eqn:Hle; [|reflexivity].
    apply Qle_bool_iff in Hle. rewrite Hp in Hle.
    rewrite <- Zle_Qle in Hle. lia.
  - intros Hb. unfold priced.
    apply buy_head_affordable; auto.
    unfold Qltb. apply negb_false_iff. apply Qle_bool_iff.
    rewrite Hb. apply Qle_refl.
  - intros Hb. unfold priced.
    apply buy_head_short; auto.
    unfold Qltb. apply negb_true_iff.
    destruct (Qle_bool (price_of offer) (balance_of status)) eqn:Hle;
      [|reflexivity].
    apply Qle_bool_iff in Hle. rewrite Hb in Hle.
    exfalso. unfold inject_Z in Hle. lra.
  - intros a nanos Hbal Hn Ha. unfold balance_of. rewrite Hbal.
    cbn [getattr]. apply whole_amount_is_exact; assumption.
Qed.

Lemma boundary_comparisons_witness :
  ((price_of offer_at_ceiling == inject_Z (max_price_stars cfg0))%Q ->
     qualifies cfg0 offer_at_ceiling = true)
  /\ ((price_of offer_at_ceiling == inject_Z (max_price_stars cfg0 + 1))%Q ->
       qualifies cfg0 offer_at_ceiling = false)
  /\ ((balance_of (stars_status 500)
        == price_of offer_at_ceiling)%Q ->
       exists r tail,
         timeline (snd (buy (env_balance 500 offer_at_ceiling) 777
                          (priced offer_at_ceiling :: []) start_world))
         = timeline start_world
             ++ (now start_world,
                 EvStatus (Ok (stars_status 500)))
             :: (now start_world
                 + network (env_balance 500 offer_at_ceiling) start_world,
                 EvForm 777 (gift_id offer_at_ceiling) r)
             :: tail)
  /\ ((balance_of (stars_status 500)
        == price_of offer_at_ceiling - inject_Z 1)%Q ->
       buy (env_balance 500 offer_at_ceiling) 777
         (priced offer_at_ceiling :: []) start_world
       = buy (env_balance 500 offer_at_ceiling) 777 []
           (say (LogSkip
                   (balance_of (stars_status 500))
                   (price_of offer_at_ceiling))
              (await
                 (EvStatus (Ok (stars_status 500)))
                 (network (env_balance 500 offer_at_ceiling) start_world)
                 start_world)))
  /\ (forall a nanos,
        balance (stars_status 500) = Some (PyAmount (Some a) nanos) ->
        or0 nanos = 0 -> Z.abs a <= 2 ^ 53 ->
        (balance_of (stars_status 500) == inject_Z a)%Q).
Proof.
  apply (boundary_comparisons cfg0 (env_balance 500 offer_at_ceiling) 777
           offer_at_ceiling [] start_world
           (stars_status 500));
    reflexivity.
Defined.

(** The four boundary cases of C7 on concrete inputs: ceiling 500. *)
Example price_at_ceiling_qualifies :
  qualifies cfg0 offer_at_ceiling = true
  /\ qualifies cfg0 offer_above_ceiling = false.
Proof. vm_compute. split; reflexivity. Qed.

Example balance_equal_to_price_buys :
  fst (run 3 (env_balance 500 offer_at_ceiling) cfg0) = Purchased
  /\ existsb (is_form_for 5)
       (timeline (snd (run 3 (env_balance 500 offer_at_ceiling) cfg0))) = true.
Proof. vm_compute. split; reflexivity. Qed.

Example balance_one_short_skips :
  fst (run 1 (env_balance 499 offer_at_ceiling) cfg0) = StillRunning
  /\ existsb (is_form_for 5)
       (timeline (snd (run 1 (env_balance 499 offer_at_ceiling) cfg0))) = false
  /\ nth_error (timeline (snd (run 1 (env_balance 499 offer_at_ceiling) cfg0))) 7
     = Some (5, EvLog (LogSkip (balance_of (stars_status 499))
                         (price_of offer_at_ceiling))).
Proof. vm_compute. repeat split. Qed.

(** C7, where the normalization rounds.  A balance object of
    [2^53 + 1] stars and no nanos normalizes to the [float] [2^53].  An
    offer priced [2^53 + 1] stars qualifies under [cfg_large], and the
    balance holds exactly its price; still the loop finds the balance
    insufficient, writes a skip line that shows [2^53], and requests no
    payment form. *)
Lemma equal_amount_can_be_insufficient :
  balance (stars_status 9007199254740993)
  = Some (PyAmount (Some 9007199254740993) (Some 0))
  /\ (price_of offer_large == inject_Z 9007199254740993)%Q
  /\ qualifies cfg_large offer_large = true
  /\ (balance_of (stars_status 9007199254740993)
      == inject_Z 9007199254740992)%Q
  /\ fst (run 1 (env_balance 9007199254740993 offer_large) cfg_large)
     = StillRunning
  /\ existsb (is_form_for 9)
       (timeline (snd (run 1 (env_balance 9007199254740993 offer_large)
                         cfg_large))) = false
  /\ nth_error
       (timeline (snd (run 1 (env_balance 9007199254740993 offer_large)
                         cfg_large))) 7
     = Some (5, EvLog (LogSkip (balance_of (stars_status 9007199254740993))
                         (price_of offer_large))).
Proof. vm_compute. repeat split. Qed.

(** The rounding goes the other way as well.  A balance object of
    [2^53 + 3] stars normalizes to [2^53 + 4], so an offer priced
    [2^53 + 4], one star more than the amount, is attempted; and
    16777216 stars with 999999999 nanos normalize to 16777217, so an
    offer priced 16777217, one nano more than the amount, is
    attempted. *)
Example amount_below_price_can_be_sufficient :
  (balance_of (stars_status 9007199254740995)
   == inject_Z 9007199254740996)%Q
  /\ existsb (is_form_for 10)
       (timeline (snd (run 1 (env_balance 9007199254740995 offer_larger)
                         cfg_large))) = true
  /\ (balance_of (stars_status_nanos 16777216 999999999)
      == inject_Z 16777217)%Q
  /\ existsb (is_form_for 11)
       (timeline (snd (run 1 (env_balance_nanos 16777216 999999999 offer_mid)
                         cfg_mid))) = true.
Proof. vm_compute. repeat split. Qed.

(** Below [2^53] whole stars without nanos nothing is rounded: the
    normalized balance of the examples above is the amount itself. *)
Example small_amounts_are_exact :
  (balance_of (stars_status 500) == inject_Z 500)%Q
  /\ (balance_of (stars_status 499) == inject_Z 500 - inject_Z 1)%Q
  /\ (balance_of (stars_status 9007199254740992)
      == inject_Z 9007199254740992)%Q.
Proof. vm_compute. repeat split. Qed.

(* ------------------------------------------------------------------ *)
(** ** Offers without a price field *)

Lemma sorted_around (l1 : list (Q * Gift)) x l2 :
  StronglySorted price_le (l1 ++ x :: l2) ->
  Forall (fun c => price_le c x) l1 /\ Forall (price_le x) l2.
Proof.
  induction l1 as [|c l1 IH]; simpl; intros H.
  - inversion H; subst. split; [constructor | assumption].
  - inversion H as [|? ? Hs Hall]; subst.
    destruct (IH Hs) as [H1 H2]. split; [|exact H2].
    constructor; [|exact H1].
    rewrite Forall_forall in Hall. apply Hall.
    apply in_or_app. right. left. reflexivity.
Qed.

Lemma candidates_In cfg gifts c :
  In c (candidates cfg gifts) <->
  exists g, c = priced g /\ In g gifts /\ qualifies cfg g = true.
Proof.
  unfold candidates. split.
  - intros H.
    apply (Permutation_in _ (sort_by_key_perm _)) in H.
    rewrite collect_filter in H. apply in_map_iff in H.
    destruct H as [g [<- Hg]]. apply filter_In in Hg. exists g. tauto.
  - intros [g [-> [Hin Hq]]].
    apply (Permutation_in _ (Permutation_sym (sort_by_key_perm _))).
    rewrite collect_filter. apply in_map. apply filter_In. tauto.
Qed.

(** C10, as stated, fails.  Both offers of the catalog lack a price
    field and qualify.  The second one is not the first purchase
    attempted: the candidates keep the catalog order, the payment form
    is requested for offer 1, the purchase succeeds and the run ends; no
    payment form is ever requested for offer 2. *)
Lemma unpriced_offer_need_not_be_first :
  stars (gift 2 None) = None
  /\ qualifies cfg0 (gift 2 None) = true
  /\ map snd (candidates cfg0 unpriced_offers) = [gift 1 None; gift 2 None]
  /\ fst (run 3 env_unpriced cfg0) = Purchased
  /\ existsb (is_form_for 1) (timeline (snd (run 3 env_unpriced cfg0))) = true
  /\ existsb (is_form_for 2) (timeline (snd (run 3 env_unpriced cfg0))) = false.
Proof. vm_compute. repeat split. Qed.

(** C10, amended.  An offer without a price field has price 0.  If it is
    limited, not sold out and available, it qualifies under every
    non-negative ceiling and is among the candidates; the candidates
    sorted before it have a price of at most 0 and those after it a
    price of at least 0.  It is the first candidate, and (with the stop
    event clear and a balance read that returns a non-negative balance)
    the first offer a payment form is requested for, when every other
    qualifying offer of the catalog has a positive price. *)
Theorem unpriced_offer_is_free_and_sorts_at_zero :
  forall cfg gifts offer,
    In offer gifts ->
    stars offer = None ->
    offer_limited offer = true ->
    offer_sold_out offer = false ->
    remains_ok (offer_remaining offer) = true ->
    0 <= max_price_stars cfg ->
    price_of offer = inject_Z 0
    /\ qualifies cfg offer = true
    /\ In (priced offer) (candidates cfg gifts)
    /\ (forall before after,
          candidates cfg gifts = before ++ priced offer :: after ->
          Forall (fun c => (fst c <= inject_Z 0)%Q) before
          /\ Forall (fun c => (inject_Z 0 <= fst c)%Q) after)
    /\ ((forall other,
           In other gifts -> qualifies cfg other = true ->
           other = offer \/ (inject_Z 0 < price_of other)%Q) ->
        exists rest,
          candidates cfg gifts = priced offer :: rest
          /\ forall env peer w status,
               is_set env w = false ->
               get_stars_status env (awaits w) = Ok status ->
               (inject_Z 0 <= balance_of status)%Q ->
               exists r tail,
                 timeline (snd (buy env peer (candidates cfg gifts) w))
                 = timeline w ++ (now w, EvStatus (Ok status))
                     :: (now w + network env w,
                         EvForm peer (gift_id offer) r)
                     :: tail).
Proof.
  intros cfg gifts offer Hin Hstars Hlim Hsold Hrem Hceil.
  unfold offer_limited, offer_sold_out, offer_remaining in *.
  assert (Hprice : price_of offer = inject_Z 0).
  { unfold price_of. rewrite Hstars. reflexivity. }
  assert (Hq : qualifies cfg offer = true).
  { unfold qualifies. rewrite Hlim, Hsold, Hrem, Hprice. simpl.
    apply Qle_bool_iff. rewrite <- Zle_Qle. exact Hceil. }
  assert (Hcand : In (priced offer) (candidates cfg gifts)).
  { apply candidates_In. exists offer. auto. }
  assert (Hsorted := sort_by_key_sorted (collect cfg gifts)).
  fold (candidates cfg gifts) in Hsorted.
  split; [exact Hprice|]. split; [exact Hq|]. split; [exact Hcand|]. split.
  - intros before after Heq. rewrite Heq in Hsorted.
    destruct (sorted_around _ _ _ Hsorted) as [H1 H2].
    unfold price_le, priced in H1, H2. cbn [fst] in H1, H2.
    rewrite Hprice in H1, H2. auto.
  - intros Hothers.
    destruct (candidates cfg gifts) as [|c0 rest] eqn:Hl; [contradiction|].
    assert (Hc0 : c0 = priced offer).
    { destruct Hcand as [Heq|Hrest]; [exact Heq|].
      inversion Hsorted as [|? ? _ Hall]; subst.
      rewrite Forall_forall in Hall. specialize (Hall _ Hrest).
      unfold price_le, priced in Hall. cbn [fst] in Hall. rewrite Hprice in Hall.
      assert (Hin0 : In c0 (candidates cfg gifts)) by (rewrite Hl; left; reflexivity).
      apply candidates_In in Hin0. destruct Hin0 as [g [-> [Hg Hgq]]].
      destruct (Hothers g Hg Hgq) as [->|Hpos]; [reflexivity|].
      exfalso. unfold priced in Hall. cbn [fst] in Hall.
      apply (Qlt_not_le _ _ Hpos). exact Hall. }
    subst c0. exists rest. split; [reflexivity|].
    intros env peer w status Hset Hst Hbal.
    unfold priced. apply buy_head_affordable; auto.
    unfold Qltb. apply negb_false_iff. apply Qle_bool_iff.
    rewrite Hprice. exact Hbal.
Qed.

Lemma unpriced_offer_is_free_and_sorts_at_zero_witness :
  price_of (gift 1 None) = inject_Z 0
  /\ qualifies cfg0 (gift 1 None) = true
  /\ In (priced (gift 1 None)) (candidates cfg0 [gift 2 (Some (PyInt 100)); gift 1 None]).
Proof.
  destruct (unpriced_offer_is_free_and_sorts_at_zero cfg0
              [gift 2 (Some (PyInt 100)); gift 1 None] (gift 1 None))
    as [H1 [H2 [H3 _]]].
  - right. left. reflexivity.
  - reflexivity.
  - reflexivity.
  - reflexivity.
  - reflexivity.
  - vm_compute. discriminate.
  - auto.
Defined.

(* ------------------------------------------------------------------ *)
(** ** Failures of the remote calls *)

(** X9.  A catalog request that fails is never fatal: it is logged with
    one line, the loop waits one poll interval, and what follows, if
    anything, is a new request with the same token. *)
Lemma catalog_failure_is_logged_and_retried :
  forall fuel env cfg out w pre t h e post,
    run fuel env cfg = (out, w) ->
    timeline w = pre ++ (t, EvGifts h (Raise e)) :: post ->
    exists t1 t2 post',
      post = (t1, EvLog (LogCatalogError e))
               :: (t2, EvSleep (poll_interval cfg)) :: post'
      /\ (post' = [] \/ exists t3 r post'', post' = (t3, EvGifts h r) :: post'').
Proof.
  intros fuel env cfg out w pre t h e post Hrun Hcut.
  destruct (run_split env cfg _ _ _ _ _ _ Hrun Hcut)
    as [s [s' [ph [_ [Hs [Ht Hf]]]]]].
  inversion Hs; subst. cbn [after_gifts] in Ht.
  destruct (Trace_Logging _ _ _ _ _ _ Ht) as [[_ ->]|[t1 [l1 [-> Hrest]]]].
  { exfalso. eapply final_not_Logging; eauto. }
  destruct (wait_then_poll _ _ _ _ _ _ _ _ Hrest Hf) as [t2 [post' [-> Hnext]]].
  exists t1, t2, post'. auto.
Qed.

(** X10.  A balance read that fails ends the run at once, with the
    exception as its outcome: nothing is logged, nothing is retried.  The
    one exception that is handled is the rejected session at start-up. *)
Lemma balance_failure_is_fatal :
  forall fuel env cfg out w pre t e post,
    run fuel env cfg = (out, w) ->
    timeline w = pre ++ (t, EvStatus (Raise e)) :: post ->
    (out = Raised e /\ post = [])
    \/ (e = AuthKeyUnregisteredError /\ out = LoginRequired).
Proof.
  intros fuel env cfg out w pre t e post Hrun Hcut.
  destruct (run_split env cfg _ _ _ _ _ _ Hrun Hcut)
    as [s [s' [ph [_ [Hs [Ht Hf]]]]]].
  inversion Hs; subst.
  - destruct e; cbn [after_first_status] in Ht.
    + destruct (Trace_Finished _ _ _ _ _ Ht) as [-> ->].
      left. split; [eapply final_Finished; eauto | reflexivity].
    + right. split; [reflexivity|].
      destruct (Trace_Logging _ _ _ _ _ _ Ht) as [[_ ->]|[t1 [l1 [-> H1]]]].
      { exfalso. eapply final_not_Logging; eauto. }
      inversion H1 as [|? ? ? ? ? Hs1 H2]; subst.
      { destruct out; simpl in Hf; break_final; discriminate. }
      inversion Hs1; subst.
      destruct (Trace_Logging _ _ _ _ _ _ H2) as [[_ ->]|[t2 [l2 [-> H3]]]].
      { exfalso. eapply final_not_Logging; eauto. }
      destruct (Trace_Finished _ _ _ _ _ H3) as [-> ->].
      eapply final_Finished; eauto.
    + destruct (Trace_Finished _ _ _ _ _ Ht) as [-> ->].
      left. split; [eapply final_Finished; eauto | reflexivity].
  - cbn [after_status] in Ht.
    destruct (Trace_Finished _ _ _ _ _ Ht) as [-> ->].
    left. split; [eapply final_Finished; eauto | reflexivity].
Qed.

(** C4 fails on the code.  The catalog holds two offers that qualify and
    the balance read made for the first candidate fails with an RPC
    error: the exception leaves [run], the run ends as [Raised], and the
    failed read is the last entry of the timeline: no log line, no wait,
    no retry.  A failed catalog request, in the same loop, is logged and
    retried after the wait. *)
Lemma balance_read_failure_aborts_run :
  fst (run 5 env_balance_fails cfg0) = Raised (RpcError 500)
  /\ skipn 5 (timeline (snd (run 5 env_balance_fails cfg0)))
     = [(3, EvGifts 0 (Ok (StarGifts (Some 7) (Some two_offers))));
        (4, EvStatus (Raise (RpcError 500)))]
  /\ fst (run 2 env_catalog_fails cfg0) = StillRunning
  /\ skipn 5 (timeline (snd (run 2 env_catalog_fails cfg0)))
     = [(3, EvGifts 0 (Raise (RpcError 500)));
        (4, EvLog (LogCatalogError (RpcError 500)));
        (4, EvSleep 15);
        (19, EvGifts 0 (Ok StarGiftsNotModified));
        (20, EvSleep 15)].
Proof. vm_compute. repeat split. Qed.

(* ------------------------------------------------------------------ *)
(** ** A session that the service rejects *)

(** C6, as stated, fails.  When the first balance read is rejected with
    [AuthKeyUnregisteredError], the run opens the client a second time to
    go through the login of the platform client, inside the run. *)
Lemma rejected_session_logs_in_within_run :
  get_stars_status env_rejected 1 = Raise AuthKeyUnregisteredError
  /\ fst (run 3 env_rejected cfg0) = LoginRequired
  /\ In (EvLogin (session cfg0))
       (map snd (timeline (snd (run 3 env_rejected cfg0)))).
Proof. vm_compute. repeat split. right. right. right. left. reflexivity. Qed.

(** C6, amended.  When the service rejects the session at the first
    balance read, the run logs that authorization is required, opens the
    client once more for its login, logs that the authorization is done
    and that the buyer must be restarted, and returns: it resolves no
    recipient, makes no catalog request and attempts no purchase. *)
Theorem rejected_session_reopens_client_and_returns :
  forall fuel env cfg,
    (API_ID env =? 0) || (API_HASH env =? "")%string = false ->
    get_stars_status env 1 = Raise AuthKeyUnregisteredError ->
    fst (run fuel env cfg) = LoginRequired
    /\ map snd (timeline (snd (run fuel env cfg)))
       = [EvConnect (session cfg);
          EvStatus (Raise AuthKeyUnregisteredError);
          EvLog LogAuthRequired;
          EvLogin (session cfg);
          EvLog LogAuthDone].
Proof.
  intros fuel env cfg Hcred Hrej. unfold run. rewrite Hcred.
  unfold GetStarsStatusRequest. cbn [connect await awaits start_world].
  rewrite Hrej. split; reflexivity.
Qed.

Lemma rejected_session_reopens_client_and_returns_witness :
  fst (run 3 env_rejected cfg0) = LoginRequired
  /\ map snd (timeline (snd (run 3 env_rejected cfg0)))
     = [EvConnect (session cfg0);
        EvStatus (Raise AuthKeyUnregisteredError);
        EvLog LogAuthRequired;
        EvLogin (session cfg0);
        EvLog LogAuthDone].
Proof.
  apply (rejected_session_reopens_client_and_returns 3 env_rejected cfg0);
    reflexivity.
Defined.

(* ================================================================== *)
(** * Further properties of the loop *)

Section Reaching.

Variable env : Env.
Variable cfg : RunConfig.

(** Induction on a trace from [Starting], one event at a time from the
    end. *)
Lemma Trace_from_start (I : list Entry -> Phase -> Prop) :
  I [] Starting ->
  (forall l s e s',
     Trace env cfg Starting l s -> I l s -> Step env cfg s e s' ->
     I (l ++ [e]) s') ->
  forall l s, Trace env cfg Starting l s -> I l s.
Proof.
  intros Hbase Hstep l. induction l as [|e l IH] using rev_ind; intros s Ht.
  - destruct (Trace_snoc_inv _ _ _ _ _ Ht) as [[_ <-]|[l' [e' [b [Heq _]]]]].
    + exact Hbase.
    + destruct l'; discriminate.
  - destruct (Trace_snoc_inv _ _ _ _ _ Ht) as [[Heq _]|[l' [e' [b [Heq [Ht' Hs]]]]]].
    + destruct l; discriminate.
    + apply app_inj_tail in Heq. destruct Heq as [-> ->].
      apply Hstep with (s := b); auto.
Qed.

(** [Submitting] is entered by a payment form of the stars kind, and by
    nothing else. *)
Lemma Step_into_Submitting s e peer h rest cand fid :
  Step env cfg s e (Submitting peer h rest cand fid) ->
  exists t form,
    e = (t, EvForm peer (gift_id (snd cand)) (Ok form))
    /\ stars_form form = Some fid.
Proof.
  intros Hs. remember (Submitting peer h rest cand fid) as target eqn:Heq.
  destruct Hs; try discriminate.
  - destruct r as [st|[| |code]]; discriminate.
  - destruct r; discriminate.
  - subst next. contradiction.
  - destruct r as [[|hash gifts]|err]; simpl in Heq; try discriminate.
    destruct (getattr gifts []); discriminate.
  - destruct r as [st|err]; simpl in Heq; try discriminate.
    destruct (Qltb (balance_of st) (fst cand0)); discriminate.
  - destruct r as [form|err]; simpl in Heq; try discriminate.
    destruct (stars_form form) as [fid0|] eqn:Hform; try discriminate.
    injection Heq; intros; subst. eauto.
  - destruct r; discriminate.
Qed.

(** The head of the loop is reached by the greeting or by a wait of one
    poll interval. *)
Lemma Step_into_AtHead s e peer h clock :
  Step env cfg s e (AtHead peer h clock) ->
  (exists t, e = (t, EvLog (LogRecipient (recipient cfg))))
  \/ (exists t, e = (t, EvSleep (poll_interval cfg))).
Proof.
  intros Hs. remember (AtHead peer h clock) as target eqn:Heq.
  destruct Hs; try discriminate; eauto.
  - destruct r as [st|[| |code]]; discriminate.
  - destruct r; discriminate.
  - subst next. contradiction.
  - destruct r as [[|hash gifts]|err]; simpl in Heq; try discriminate.
    destruct (getattr gifts []); discriminate.
  - destruct r as [st|err]; simpl in Heq; try discriminate.
    destruct (Qltb (balance_of st) (fst cand)); discriminate.
  - destruct r as [form|err]; simpl in Heq; try discriminate.
    destruct (stars_form form); discriminate.
  - destruct r; discriminate.
Qed.

(** No step leads to a phase that logs and then ends with an exception
    or as [Purchased], except the successful payment. *)
Lemma Step_into_Logging_Finished s e m out :
  Step env cfg s e (Logging m (Finished out)) ->
  (out = LoginRequired /\ m = LogAuthDone)
  \/ (out = Purchased
      /\ exists t peer h rest cand fid u,
           s = Submitting peer h rest cand fid
           /\ e = (t, EvSend fid peer (gift_id (snd cand)) (Ok u))
           /\ m = LogBought (gift_id (snd cand)) (fst cand)).
Proof.
  intros Hs. remember (Logging m (Finished out)) as target eqn:Heq.
  destruct Hs; try discriminate.
  - destruct r as [st|[| |code]]; discriminate.
  - injection Heq; intros; subst. auto.
  - destruct r; discriminate.
  - subst next. contradiction.
  - destruct r as [[|hash gifts]|e0]; simpl in Heq; try discriminate.
    destruct (getattr gifts []); discriminate.
  - destruct r as [st|e0]; simpl in Heq; try discriminate.
    destruct (Qltb (balance_of st) (fst cand)); discriminate.
  - destruct r as [form|e0]; simpl in Heq; try discriminate.
    destruct (stars_form form); discriminate.
  - destruct r as [u|e0]; simpl in Heq; try discriminate.
    injection Heq; intros; subst. right. split; [reflexivity|].
    repeat eexists.
Qed.

End Reaching.

(* ------------------------------------------------------------------ *)
(** ** Failures inside a purchase attempt *)

Section Attempts.

Variable env : Env.
Variable cfg : RunConfig.



End Attempts.







(** X4.  Every payment that is submitted comes directly after the
    payment form it pays: the entry just before it is a successful form
    request for the same recipient and the same offer, the form is of a
    stars kind, and the payment carries the id of that form. *)
Theorem payment_follows_its_form :
  forall fuel env cfg out w pre t fid peer gid r post,
    run fuel env cfg = (out, w) ->
    timeline w = pre ++ (t, EvSend fid peer gid r) :: post ->
    exists pre' t' form,
      pre = pre' ++ [(t', EvForm peer gid (Ok form))]
      /\ stars_form form = Some fid.
Proof.
  intros fuel env cfg out w pre t fid peer gid r post Hrun Hcut.
  destruct (run_split env cfg _ _ _ _ _ _ Hrun Hcut)
    as [s [s' [ph [Hpre [Hs _]]]]].
  inversion Hs; subst.
  destruct (Trace_snoc_inv _ _ _ _ _ Hpre)
    as [[_ Habs]|[pre' [e [b [-> [_ Hlast]]]]]]; [discriminate|].
  destruct (Step_into_Submitting _ _ _ _ _ _ _ _ _ Hlast)
    as [t' [form [-> Hform]]].
  exists pre', t', form. auto.
Qed.

Lemma payment_follows_its_form_witness :
  exists pre' t' form,
    firstn 8 (timeline (snd (run 5 env_two_offers cfg0)))
    = pre' ++ [(t', EvForm 777 1 (Ok form))]
    /\ stars_form form = Some 1001.
Proof.
  apply (payment_follows_its_form 5 env_two_offers cfg0
           (fst (run 5 env_two_offers cfg0)) (snd (run 5 env_two_offers cfg0))
           (firstn 8 (timeline (snd (run 5 env_two_offers cfg0))))
           6 1001 777 1 (Ok tt)
           (skipn 9 (timeline (snd (run 5 env_two_offers cfg0))))).
  - vm_compute. reflexivity.
  - vm_compute. reflexivity.
Defined.

(** X5.  The run never pays above the ceiling: every payment that is
    submitted, whether it goes through or not, is for an offer of the
    latest catalog answer that passed the test of line 102, so one that
    is limited, not sold out, not out of stock, and priced at most
    [max_price_stars].  When the offers of that answer have distinct
    ids, this is the offer that has the id the payment names. *)
Theorem payment_only_for_qualifying_offer :
  forall fuel env cfg out w pre t fid peer gid r post,
    run fuel env cfg = (out, w) ->
    timeline w = pre ++ (t, EvSend fid peer gid r) :: post ->
    exists offer,
      In offer (latest_gifts pre)
      /\ gift_id offer = gid
      /\ offer_eligible (max_price_stars cfg) offer
      /\ (NoDup (map gift_id (latest_gifts pre)) ->
          forall o, In o (latest_gifts pre) -> gift_id o = gid ->
                    offer_eligible (max_price_stars cfg) o).
Proof.
  intros fuel env cfg out w pre t fid peer gid r post Hrun Hcut.
  destruct (run_split env cfg _ _ _ _ _ _ Hrun Hcut)
    as [s [s' [ph [Hpre [Hs _]]]]].
  inversion Hs as [ | | | | | | | | | | | t0 p h rest cand fid0 r0 ]; subst.
  assert (Hgen : Forall (genuine cfg)
                   (carried (Submitting peer h rest cand fid))).
  { eapply Trace_carried; [eassumption | constructor]. }
  assert (Hcat : Forall (fun c => In (snd c) (latest_gifts pre))
                   (carried (Submitting peer h rest cand fid))).
  { apply (Trace_catalog env cfg _ _ _ Hpre []). constructor. }
  inversion Hgen as [|c l [_ Hq] _]; subst.
  inversion Hcat as [|c l Hin _]; subst.
  assert (Hel : offer_eligible (max_price_stars cfg) (snd cand)).
  { apply eligibleb_spec. rewrite <- qualifies_eligibleb. exact Hq. }
  exists (snd cand).
  split; [exact Hin|]. split; [reflexivity|]. split; [exact Hel|].
  intros Hnd o Ho Hid.
  rewrite (same_id_same_offer _ o (snd cand) Hnd Ho Hin Hid). exact Hel.
Qed.

Lemma payment_only_for_qualifying_offer_witness :
  exists offer,
    In offer (latest_gifts (firstn 8 (timeline (snd (run 5 env_two_offers cfg0)))))
    /\ gift_id offer = 1
    /\ offer_eligible (max_price_stars cfg0) offer
    /\ (NoDup (map gift_id
                 (latest_gifts
                    (firstn 8 (timeline (snd (run 5 env_two_offers cfg0)))))) ->
        forall o,
          In o (latest_gifts
                  (firstn 8 (timeline (snd (run 5 env_two_offers cfg0))))) ->
          gift_id o = 1 ->
          offer_eligible (max_price_stars cfg0) o).
Proof.
  apply (payment_only_for_qualifying_offer 5 env_two_offers cfg0
           (fst (run 5 env_two_offers cfg0)) (snd (run 5 env_two_offers cfg0))
           (firstn 8 (timeline (snd (run 5 env_two_offers cfg0))))
           6 1001 777 1 (Ok tt)
           (skipn 9 (timeline (snd (run 5 env_two_offers cfg0))))).
  - vm_compute. reflexivity.
  - vm_compute. reflexivity.
Defined.

(* ------------------------------------------------------------------ *)
(** ** The cadence of the polls and the token they carry *)

(** X6.  The loop never polls twice in a row without waiting: the entry
    just before a catalog request is the log line that names the
    recipient (for the first poll of the run) or a wait of one poll
    interval (for every later one). *)
Theorem catalog_request_follows_a_wait :
  forall fuel env cfg out w pre t h r post,
    run fuel env cfg = (out, w) ->
    timeline w = pre ++ (t, EvGifts h r) :: post ->
    exists pre' t',
      pre = pre' ++ [(t', EvLog (LogRecipient (recipient cfg)))]
      \/ pre = pre' ++ [(t', EvSleep (poll_interval cfg))].
Proof.
  intros fuel env cfg out w pre t h r post Hrun Hcut.
  destruct (run_split env cfg _ _ _ _ _ _ Hrun Hcut)
    as [s [s' [ph [Hpre [Hs _]]]]].
  inversion Hs; subst.
  destruct (Trace_snoc_inv _ _ _ _ _ Hpre)
    as [[_ Habs]|[pre' [e [b [-> [_ Hlast]]]]]]; [discriminate|].
  destruct (Step_into_AtHead _ _ _ _ _ _ _ Hlast) as [[t' ->]|[t' ->]];
    exists pre', t'; auto.
Qed.

Lemma catalog_request_follows_a_wait_witness :
  exists pre' t',
    firstn 7 (timeline (snd (run 2 env_empty cfg0)))
    = pre' ++ [(t', EvLog (LogRecipient (recipient cfg0)))]
    \/ firstn 7 (timeline (snd (run 2 env_empty cfg0)))
       = pre' ++ [(t', EvSleep (poll_interval cfg0))].
Proof.
  apply (catalog_request_follows_a_wait 2 env_empty cfg0
           (fst (run 2 env_empty cfg0)) (snd (run 2 env_empty cfg0))
           (firstn 7 (timeline (snd (run 2 env_empty cfg0))))
           19 7 (Ok (StarGifts (Some 7) (Some [])))
           (skipn 8 (timeline (snd (run 2 env_empty cfg0))))).
  - vm_compute. reflexivity.
  - vm_compute. reflexivity.
Defined.

Section Token.

Variable env : Env.
Variable cfg : RunConfig.

Lemma token_after_snoc l e :
  token_after (l ++ [e])
  = match snd e with
    | EvGifts h0 r => next_hash h0 r
    | _ => token_after l
    end.
Proof.
  unfold token_after. rewrite fold_left_app. reflexivity.
Qed.

(** The phase always holds the token that the history dictates. *)
Lemma token_tracked l s :
  Trace env cfg Starting l s ->
  forall h, token_of s = Some h -> h = token_after l.
Proof.
  revert l s. apply (Trace_from_start env cfg
    (fun l s => forall h, token_of s = Some h -> h = token_after l)).
  - intros h Hh. injection Hh; intros; subst. reflexivity.
  - intros l s e s' _ IH Hs h Hh. rewrite token_after_snoc.
    destruct Hs; cbn [snd token_of] in *.
    + apply IH. exact Hh.
    + apply IH. destruct r as [st|[| |code]]; simpl in Hh;
        try discriminate; exact Hh.
    + discriminate.
    + apply IH. destruct r; simpl in Hh; try discriminate; exact Hh.
    + apply IH. exact Hh.
    + apply IH. exact Hh.
    + destruct r as [[|hash gifts]|err]; simpl in Hh |- *.
      * congruence.
      * destruct (getattr gifts []); simpl in Hh; congruence.
      * congruence.
    + apply IH. exact Hh.
    + apply IH. exact Hh.
    + apply IH. destruct r as [st|err]; simpl in Hh; try discriminate.
      destruct (Qltb (balance_of st) (fst cand)); simpl in Hh; exact Hh.
    + apply IH. destruct r as [form|err]; simpl in Hh; try exact Hh.
      destruct (stars_form form); simpl in Hh; exact Hh.
    + apply IH. destruct r as [u|err]; simpl in Hh; try discriminate.
      exact Hh.
Qed.

(** Whoever holds a recipient got it from line 75. *)
Lemma peer_tracked l s :
  Trace env cfg Starting l s ->
  forall p, peer_of s = Some p ->
    In (EvEntity (recipient cfg) (Ok p)) (map snd l).
Proof.
  revert l s. apply (Trace_from_start env cfg
    (fun l s => forall p, peer_of s = Some p ->
                  In (EvEntity (recipient cfg) (Ok p)) (map snd l))).
  - intros p Hp. discriminate.
  - intros l s e s' _ IH Hs p Hp. rewrite map_app. apply in_or_app.
    destruct Hs; cbn [snd peer_of map] in *;
      try (left; apply IH; exact Hp).
    + destruct r as [st|[| |code]]; simpl in Hp; discriminate.
    + destruct r as [q|err]; simpl in Hp; try discriminate.
      injection Hp; intros; subst. right. left. reflexivity.
    + left. apply IH.
      destruct r as [[|hash gifts]|err]; simpl in Hp; try exact Hp.
      destruct (getattr gifts []); simpl in Hp; exact Hp.
    + left. apply IH. destruct r as [st|err]; simpl in Hp; try discriminate.
      destruct (Qltb (balance_of st) (fst cand)); simpl in Hp; exact Hp.
    + left. apply IH. destruct r as [form|err]; simpl in Hp; try exact Hp.
      destruct (stars_form form); simpl in Hp; exact Hp.
    + left. apply IH. destruct r as [u|err]; simpl in Hp; try discriminate.
      exact Hp.
Qed.

End Token.

(** X7.  Every catalog request carries the token that the history of the
    run dictates: 0 before any catalog answer, then the hash of the
    latest answer that was a catalog (0 if it had none); a "not modified"
    answer or a failed request leaves the token as it was sent. *)
Theorem catalog_request_carries_latest_hash :
  forall fuel env cfg out w pre t h r post,
    run fuel env cfg = (out, w) ->
    timeline w = pre ++ (t, EvGifts h r) :: post ->
    h = token_after pre.
Proof.
  intros fuel env cfg out w pre t h r post Hrun Hcut.
  destruct (run_split env cfg _ _ _ _ _ _ Hrun Hcut)
    as [s [s' [ph [Hpre [Hs _]]]]].
  inversion Hs; subst.
  eapply token_tracked; eauto.
Qed.

Lemma catalog_request_carries_latest_hash_witness :
  7 = token_after (firstn 7 (timeline (snd (run 2 env_empty cfg0)))).
Proof.
  apply (catalog_request_carries_latest_hash 2 env_empty cfg0
           (fst (run 2 env_empty cfg0)) (snd (run 2 env_empty cfg0))
           (firstn 7 (timeline (snd (run 2 env_empty cfg0))))
           19 7 (Ok (StarGifts (Some 7) (Some [])))
           (skipn 8 (timeline (snd (run 2 env_empty cfg0))))).
  - vm_compute. reflexivity.
  - vm_compute. reflexivity.
Defined.

(** X8.  Every payment form is requested for, and every payment is sent
    to, a peer that the run obtained earlier by resolving the configured
    recipient (line 75): the gift never goes to anybody else. *)
Theorem purchase_is_addressed_to_the_recipient :
  forall fuel env cfg out w pre t peer x post,
    run fuel env cfg = (out, w) ->
    timeline w = pre ++ (t, x) :: post ->
    (exists gid r, x = EvForm peer gid r)
    \/ (exists fid gid r, x = EvSend fid peer gid r) ->
    In (EvEntity (recipient cfg) (Ok peer)) (map snd pre).
Proof.
  intros fuel env cfg out w pre t peer x post Hrun Hcut Hx.
  destruct (run_split env cfg _ _ _ _ _ _ Hrun Hcut)
    as [s [s' [ph [Hpre [Hs _]]]]].
  destruct Hx as [[gid [r ->]]|[fid [gid [r ->]]]];
    inversion Hs; subst;
    eapply peer_tracked; eauto; reflexivity.
Qed.

Lemma purchase_is_addressed_to_the_recipient_witness :
  In (EvEntity (recipient cfg0) (Ok 777))
    (map snd (firstn 8 (timeline (snd (run 5 env_two_offers cfg0))))).
Proof.
  apply (purchase_is_addressed_to_the_recipient 5 env_two_offers cfg0
           (fst (run 5 env_two_offers cfg0)) (snd (run 5 env_two_offers cfg0))
           (firstn 8 (timeline (snd (run 5 env_two_offers cfg0))))
           6 777 (EvSend 1001 777 1 (Ok tt))
           (skipn 9 (timeline (snd (run 5 env_two_offers cfg0))))).
  - vm_compute. reflexivity.
  - vm_compute. reflexivity.
  - right. exists 1001, 1, (Ok tt). reflexivity.
Defined.

(* ------------------------------------------------------------------ *)
(** ** How a run ends *)

Section Endings.

Variable env : Env.
Variable cfg : RunConfig.

Lemma Step_into_Purchased s e :
  Step env cfg s e (Finished Purchased) ->
  exists t m, e = (t, EvLog m) /\ s = Logging m (Finished Purchased).
Proof.
  intros Hs. remember (Finished Purchased) as target eqn:Heq.
  destruct Hs; try discriminate.
  - destruct r as [st|[| |code]]; discriminate.
  - destruct r; discriminate.
  - subst next. eauto.
  - destruct r as [[|hash gifts]|e0]; simpl in Heq; try discriminate.
    destruct (getattr gifts []); discriminate.
  - destruct r as [st|e0]; simpl in Heq; try discriminate.
    destruct (Qltb (balance_of st) (fst cand)); discriminate.
  - destruct r as [form|e0]; simpl in Heq; try discriminate.
    destruct (stars_form form); discriminate.
  - destruct r; discriminate.
Qed.

End Endings.

Lemma catalog_failure_is_logged_and_retried_witness :
  exists t1 t2 post',
    skipn 6 (timeline (snd (run 2 env_catalog_fails cfg0)))
    = (t1, EvLog (LogCatalogError (RpcError 500)))
        :: (t2, EvSleep (poll_interval cfg0)) :: post'
    /\ (post' = [] \/ exists t3 r post'', post' = (t3, EvGifts 0 r) :: post'').
Proof.
  apply (catalog_failure_is_logged_and_retried 2 env_catalog_fails cfg0
           (fst (run 2 env_catalog_fails cfg0))
           (snd (run 2 env_catalog_fails cfg0))
           (firstn 5 (timeline (snd (run 2 env_catalog_fails cfg0))))
           3 0 (RpcError 500)).
  - vm_compute. reflexivity.
  - vm_compute. reflexivity.
Defined.

Lemma balance_failure_is_fatal_witness :
  (fst (run 5 env_balance_fails cfg0) = Raised (RpcError 500)
   /\ skipn 7 (timeline (snd (run 5 env_balance_fails cfg0))) = [])
  \/ (RpcError 500 = AuthKeyUnregisteredError
      /\ fst (run 5 env_balance_fails cfg0) = LoginRequired).
Proof.
  apply (balance_failure_is_fatal 5 env_balance_fails cfg0
           (fst (run 5 env_balance_fails cfg0))
           (snd (run 5 env_balance_fails cfg0))
           (firstn 6 (timeline (snd (run 5 env_balance_fails cfg0))))
           4 (RpcError 500)).
  - vm_compute. reflexivity.
  - vm_compute. reflexivity.
Defined.

(** X11.  A recipient that cannot be resolved ends the run with that
    exception, at once: the failed resolution is the last thing the run
    does, so no catalog is ever requested. *)
Theorem recipient_failure_is_fatal :
  forall fuel env cfg out w pre t who e post,
    run fuel env cfg = (out, w) ->
    timeline w = pre ++ (t, EvEntity who (Raise e)) :: post ->
    out = Raised e /\ post = [].
Proof.
  intros fuel env cfg out w pre t who e post Hrun Hcut.
  destruct (run_split env cfg _ _ _ _ _ _ Hrun Hcut)
    as [s [s' [ph [_ [Hs [Ht Hf]]]]]].
  inversion Hs; subst. cbn [after_entity] in Ht.
  destruct (Trace_Finished _ _ _ _ _ Ht) as [-> ->].
  split; [eapply final_Finished; eauto | reflexivity].
Qed.

Lemma recipient_failure_is_fatal_witness :
  fst (run 5 env_no_peer cfg0) = Raised (RpcError 404)
  /\ skipn 4 (timeline (snd (run 5 env_no_peer cfg0))) = [].
Proof.
  apply (recipient_failure_is_fatal 5 env_no_peer cfg0
           (fst (run 5 env_no_peer cfg0)) (snd (run 5 env_no_peer cfg0))
           (firstn 3 (timeline (snd (run 5 env_no_peer cfg0))))
           2 "me"%string (RpcError 404)).
  - vm_compute. reflexivity.
  - vm_compute. reflexivity.
Defined.

(** X13.  A run that ends as [Purchased] has bought exactly what it
    says: the last two entries of its timeline are a payment that went
    through and the log line of the purchase, which names the offer that
    was paid. *)
Theorem purchased_run_ends_with_payment :
  forall fuel env cfg w,
    run fuel env cfg = (Purchased, w) ->
    exists pre t fid peer gid u t' price,
      timeline w = pre ++ [(t, EvSend fid peer gid (Ok u));
                           (t', EvLog (LogBought gid price))].
Proof.
  intros fuel env cfg w Hrun.
  destruct (run_follows env cfg _ _ _ Hrun) as [[Hout _]|[ph [Ht Hf]]];
    [discriminate|].
  simpl in Hf. subst ph.
  destruct (Trace_snoc_inv _ _ _ _ _ Ht)
    as [[_ Habs]|[l1 [x1 [b1 [Heq1 [Ht1 Hs1]]]]]]; [discriminate|].
  destruct (Step_into_Purchased _ _ _ _ Hs1) as [t' [m [-> ->]]].
  destruct (Trace_snoc_inv _ _ _ _ _ Ht1)
    as [[_ Habs]|[l2 [x2 [b2 [Heq2 [_ Hs2]]]]]]; [discriminate|].
  destruct (Step_into_Logging_Finished _ _ _ _ _ _ Hs2)
    as [[Habs _]|[_ [t [peer [h [rest [cand [fid [u [_ [-> ->]]]]]]]]]]];
    [discriminate|].
  exists l2, t, fid, peer, (gift_id (snd cand)), u, t', (fst cand).
  rewrite Heq1, Heq2, <- app_assoc. reflexivity.
Qed.

Lemma purchased_run_ends_with_payment_witness :
  exists pre t fid peer gid u t' price,
    timeline (snd (run 5 env_two_offers cfg0))
    = pre ++ [(t, EvSend fid peer gid (Ok u));
              (t', EvLog (LogBought gid price))].
Proof.
  apply (purchased_run_ends_with_payment 5 env_two_offers cfg0
           (snd (run 5 env_two_offers cfg0))).
  vm_compute. reflexivity.
Defined.

(** X14.  A run ends as [Cancelled] only if a stop was requested, and
    not before the request: without a request the loop is never left
    through its test. *)
Theorem cancelled_only_on_request :
  forall fuel env cfg w,
    run fuel env cfg = (Cancelled, w) ->
    exists ts, stop_at env = Some ts /\ ts <= now w.
Proof.
  intros fuel env cfg w Hrun.
  destruct (run_follows env cfg _ _ _ Hrun) as [[Hout _]|[ph [_ Hf]]];
    [discriminate|].
  simpl in Hf. destruct Hf as [peer [h [_ Hseen]]].
  unfold stop_seen in Hseen. destruct (stop_at env) as [ts|]; [|discriminate].
  exists ts. split; [reflexivity | apply Z.leb_le; exact Hseen].
Qed.

Lemma cancelled_only_on_request_witness :
  exists ts,
    stop_at (env_stopped_at 9) = Some ts
    /\ ts <= now (snd (run 3 (env_stopped_at 9) cfg0)).
Proof.
  apply (cancelled_only_on_request 3 (env_stopped_at 9) cfg0
           (snd (run 3 (env_stopped_at 9) cfg0))).
  vm_compute. reflexivity.
Defined.

(* ------------------------------------------------------------------ *)
(** ** The stop event inside the loop *)

Section Tested.

Variable env : Env.

Lemma adds_tested_refl w : adds_tested env w w.
Proof. exists []. rewrite app_nil_r. split; [reflexivity | constructor]. Qed.

Lemma adds_tested_trans w1 w2 w3 :
  adds_tested env w1 w2 -> adds_tested env w2 w3 -> adds_tested env w1 w3.
Proof.
  intros [t1 [H1 F1]] [t2 [H2 F2]]. exists (t1 ++ t2). split.
  - rewrite H2, H1, app_assoc. reflexivity.
  - apply Forall_app. auto.
Qed.

Lemma adds_tested_say m w : adds_tested env w (say m w).
Proof.
  exists [(now w, EvLog m)]. split; [reflexivity|].
  constructor; [|constructor]. intros H. discriminate.
Qed.

Lemma adds_tested_await e d w :
  (tested_call (now w, e) = true -> is_set env w = false) ->
  adds_tested env w (await e d w).
Proof.
  intros H. exists [(now w, e)]. split; [reflexivity|].
  constructor; [|constructor]. exact H.
Qed.

Lemma buy_adds_tested peer : forall cands w,
  adds_tested env w (snd (buy env peer cands w)).
Proof.
  induction cands as [|[price offer] rest IH]; intros w; cbn [buy].
  - apply adds_tested_refl.
  - destruct (is_set env w) eqn:Hset; [apply adds_tested_refl|].
    unfold GetStarsStatusRequest, GetPaymentFormRequest, SendStarsFormRequest.
    cbv beta iota zeta.
    set (r := get_stars_status env (awaits w)).
    assert (H1 : adds_tested env w (await (EvStatus r) (network env w) w)).
    { apply adds_tested_await. intros _. exact Hset. }
    destruct r as [status|e]; [|exact H1].
    destruct (Qltb (balance_of status) price).
    { eapply adds_tested_trans; [exact H1|].
      eapply adds_tested_trans; [apply adds_tested_say | apply IH]. }
    set (w1 := await (EvStatus (Ok status)) (network env w) w) in *.
    set (rf := get_payment_form env (awaits w1) peer (gift_id offer)).
    assert (H2 : adds_tested env w
                   (await (EvForm peer (gift_id offer) rf) (network env w1) w1)).
    { eapply adds_tested_trans; [exact H1|].
      apply adds_tested_await. intros H. discriminate. }
    destruct rf as [form|e].
    2:{ eapply adds_tested_trans; [exact H2|].
        eapply adds_tested_trans; [apply adds_tested_say | apply IH]. }
    destruct (stars_form form) as [fid|].
    2:{ eapply adds_tested_trans; [exact H2|].
        eapply adds_tested_trans; [apply adds_tested_say | apply IH]. }
    set (w2 := await (EvForm peer (gift_id offer) (Ok form)) (network env w1) w1) in *.
    set (rs := send_stars_form env (awaits w2) fid peer (gift_id offer)).
    assert (H3 : adds_tested env w
                   (await (EvSend fid peer (gift_id offer) rs) (network env w2) w2)).
    { eapply adds_tested_trans; [exact H2|].
      apply adds_tested_await. intros H. discriminate. }
    destruct rs as [u|e].
    + cbn [snd]. eapply adds_tested_trans; [exact H3 | apply adds_tested_say].
    + eapply adds_tested_trans; [exact H3|].
      eapply adds_tested_trans; [apply adds_tested_say | apply IH].
Qed.

Lemma poll_adds_tested cfg peer : forall fuel h w,
  adds_tested env w (snd (poll fuel env cfg peer h w)).
Proof.
  assert (Hsleep : forall d w, adds_tested env w (sleep d w)).
  { intros d w. apply adds_tested_await. intros H. discriminate. }
  induction fuel as [|fuel IH]; intros h w; cbn [poll].
  - apply adds_tested_refl.
  - destruct (is_set env w) eqn:Hset; [apply adds_tested_refl|].
    unfold GetStarGiftsRequest. cbv beta iota zeta.
    set (r := get_star_gifts env (awaits w) h).
    assert (H1 : adds_tested env w (await (EvGifts h r) (network env w) w)).
    { apply adds_tested_await. intros _. exact Hset. }
    destruct r as [[|hash gifts]|e].
    + eapply adds_tested_trans; [exact H1|].
      eapply adds_tested_trans; [apply Hsleep | apply IH].
    + destruct (getattr gifts []) as [|g l].
      * eapply adds_tested_trans; [exact H1|].
        eapply adds_tested_trans; [apply Hsleep | apply IH].
      * set (w1 := await (EvGifts h (Ok (StarGifts hash gifts))) (network env w) w) in *.
        assert (H2 := buy_adds_tested peer (candidates cfg (g :: l)) w1).
        destruct (buy env peer (candidates cfg (g :: l)) w1) as [[|e|] w2];
          cbn [snd] in *.
        -- eapply adds_tested_trans; eauto.
        -- eapply adds_tested_trans; eauto.
        -- eapply adds_tested_trans; [exact H1|].
           eapply adds_tested_trans; [exact H2|].
           eapply adds_tested_trans; [apply Hsleep | apply IH].
    + eapply adds_tested_trans; [exact H1|].
      eapply adds_tested_trans; [apply adds_tested_say|].
      eapply adds_tested_trans; [apply Hsleep | apply IH].
Qed.

End Tested.

(** X15.  Inside the loop, every catalog request and every balance read
    starts at a moment when the stop event is not set: once the event is
    set, the loop starts no new poll and no new purchase attempt.  (A
    payment form or a payment that follows a balance read already made
    is not held back.) *)
Theorem loop_calls_start_with_stop_clear :
  forall fuel env cfg peer h w,
    exists tail,
      timeline (snd (poll fuel env cfg peer h w)) = timeline w ++ tail
      /\ Forall (fun e => tested_call e = true -> stop_seen env (fst e) = false)
           tail.
Proof.
  intros fuel env cfg peer h w.
  exact (poll_adds_tested env cfg peer fuel h w).
Qed.

(* ------------------------------------------------------------------ *)
(** ** A batch that cannot be afforded *)

(** X16.  When no stop is requested and every balance read succeeds
    with a balance below the price of every candidate (the reads need
    not agree with one another), the [for] loop runs to the end of the
    batch: for each candidate, in order, it reads the balance once and
    writes one skip line with the balance of that read, and it requests
    no payment form at all. *)
Theorem unaffordable_batch_is_skipped :
  forall env peer cands w,
    stop_at env = None ->
    (forall n, exists status,
        get_stars_status env n = Ok status
        /\ Forall (fun c => (balance_of status < fst c)%Q) cands) ->
    fst (buy env peer cands w) = ForDone
    /\ map snd (timeline (snd (buy env peer cands w)))
       = map snd (timeline w) ++ skip_all env (awaits w) cands.
Proof.
  intros env peer cands w Hstop.
  revert w. induction cands as [|[price offer] rest IH]; intros w Hall.
  - cbn [buy fst snd skip_all]. rewrite app_nil_r. auto.
  - destruct (Hall (awaits w)) as [status [Hst Hshort]].
    inversion Hshort as [|? ? Hlt _]; subst. cbn [fst] in Hlt.
    rewrite (buy_head_short env peer price offer rest w status).
    + set (w' := say (LogSkip (balance_of status) price)
                   (await (EvStatus (Ok status)) (network env w) w)).
      assert (Hrest : forall n, exists st,
                 get_stars_status env n = Ok st
                 /\ Forall (fun c => (balance_of st < fst c)%Q) rest).
      { intros n. destruct (Hall n) as [st [Hn Hf]]. exists st.
        split; [exact Hn|]. inversion Hf; assumption. }
      destruct (IH w' Hrest) as [H1 H2].
      split; [exact H1|]. rewrite H2.
      cbn [skip_all]. rewrite Hst.
      unfold w'. cbn [timeline awaits say await fst].
      rewrite !map_app, <- !app_assoc. reflexivity.
    + unfold is_set, stop_seen. rewrite Hstop. reflexivity.
    + exact Hst.
    + unfold Qltb. apply negb_true_iff.
      destruct (Qle_bool price (balance_of status)) eqn:Hle; [|reflexivity].
      apply Qle_bool_iff in Hle. exfalso. exact (Qlt_not_le _ _ Hlt Hle).
Qed.

Lemma unaffordable_batch_is_skipped_witness :
  fst (buy env_short 777 (candidates cfg0 two_offers) start_world) = ForDone
  /\ map snd (timeline (snd (buy env_short 777 (candidates cfg0 two_offers)
                              start_world)))
     = map snd (timeline start_world)
       ++ skip_all env_short (awaits start_world) (candidates cfg0 two_offers).
Proof.
  apply (unaffordable_batch_is_skipped env_short 777
           (candidates cfg0 two_offers) start_world).
  - reflexivity.
  - intros n. cbn [get_stars_status env_short].
    destruct (Nat.even n); eexists; (split; [reflexivity|]);
      vm_compute; repeat constructor.
Defined.

(** In that batch the two reads return different balances, 50 and then
    60, and each skip line shows the balance of its own read. *)
Example each_skip_shows_its_own_read :
  map snd (timeline (snd (buy env_short 777 (candidates cfg0 two_offers)
                            start_world)))
  = [EvStatus (Ok (stars_status 50));
     EvLog (LogSkip (balance_of (stars_status 50)) (inject_Z 100));
     EvStatus (Ok (stars_status 60));
     EvLog (LogSkip (balance_of (stars_status 60)) (inject_Z 300))].
Proof. vm_compute. reflexivity. Qed.

(* ------------------------------------------------------------------ *)
(** ** The ceiling *)

(** X17.  Raising the ceiling never removes a candidate: an offer that
    is a candidate under one configuration is a candidate, at the same
    price, under any configuration whose ceiling is not lower. *)
Theorem raising_the_ceiling_keeps_candidates :
  forall lo hi gifts c,
    max_price_stars lo <= max_price_stars hi ->
    In c (candidates lo gifts) ->
    In c (candidates hi gifts).
Proof.
  intros lo hi gifts c Hle Hin.
  apply candidates_In in Hin. destruct Hin as [g [-> [Hg Hq]]].
  apply candidates_In. exists g. split; [reflexivity|]. split; [exact Hg|].
  unfold qualifies in *.
  apply andb_true_iff in Hq. destruct Hq as [Hflags Hprice].
  apply andb_true_iff. split; [exact Hflags|].
  apply Qle_bool_iff in Hprice. apply Qle_bool_iff.
  eapply Qle_trans; [exact Hprice|]. rewrite <- Zle_Qle. exact Hle.
Qed.

Lemma raising_the_ceiling_keeps_candidates_witness :
  In (priced (gift 1 (Some (PyInt 100))))
    (candidates (mkRunConfig "s" "me" 600 15) two_offers).
Proof.
  apply (raising_the_ceiling_keeps_candidates cfg0
           (mkRunConfig "s" "me" 600 15) two_offers).
  - vm_compute. discriminate.
  - left. reflexivity.
Defined.

(* ------------------------------------------------------------------ *)
(** ** The start of a run *)

(** X18.  Without both credentials a run raises [RuntimeError] before it
    does anything: no client is opened and nothing is logged.  With
    them, whatever happens later, the run starts by opening the client
    for the configured session and reading the balance. *)
Theorem run_starts_with_credentials_check :
  forall fuel env cfg,
    ((API_ID env =? 0) || (API_HASH env =? "")%string = true ->
       run fuel env cfg = (Raised RuntimeError, start_world))
    /\ ((API_ID env =? 0) || (API_HASH env =? "")%string = false ->
        exists t r rest,
          timeline (snd (run fuel env cfg))
          = (0, EvConnect (session cfg)) :: (t, EvStatus r) :: rest).
Proof.
  intros fuel env cfg. unfold run. split; intros Hcred; rewrite Hcred.
  - reflexivity.
  - unfold GetStarsStatusRequest, GetInputEntity. cbv beta iota zeta.
    set (w0 := connect env (session cfg) start_world).
    set (r := get_stars_status env (awaits w0)).
    exists (now w0), r.
    destruct r as [status|e].
    + set (w2 := say (LogBalance (balance_of status))
                   (await (EvStatus (Ok status)) (network env w0) w0)).
      destruct (get_input_entity env (awaits w2) (recipient cfg)) as [peer|e].
      * match goal with
        | |- context [poll fuel env cfg peer 0 ?w3] =>
            destruct (poll_adds_tested env cfg peer fuel 0 w3) as [tail [-> _]]
        end.
        eexists. cbn [timeline say await w2 w0 connect start_world now app].
        reflexivity.
      * eexists. cbn [snd timeline say await w2 w0 connect start_world now app].
        reflexivity.
    + destruct e; eexists;
        cbn [snd timeline say await login w0 connect start_world now app];
        reflexivity.
Qed.

Lemma run_starts_with_credentials_check_witness :
  exists t r rest,
    timeline (snd (run 5 env_two_offers cfg0))
    = (0, EvConnect (session cfg0)) :: (t, EvStatus r) :: rest.
Proof.
  apply (proj2 (run_starts_with_credentials_check 5 env_two_offers cfg0)).
  reflexivity.
Defined.

(* ------------------------------------------------------------------ *)
(** ** What the log says about a skip *)

Section Skips.

Variable env : Env.
Variable cfg : RunConfig.

Lemma Step_into_skip s e b p next :
  Step env cfg s e (Logging (LogSkip b p) next) ->
  exists t status,
    e = (t, EvStatus (Ok status))
    /\ b = balance_of status
    /\ Qltb b p = true.
Proof.
  intros Hs. remember (Logging (LogSkip b p) next) as target eqn:Heq.
  destruct Hs; try discriminate.
  - destruct r as [st|[| |code]]; discriminate.
  - destruct r; discriminate.
  - subst next0. contradiction.
  - destruct r as [[|hash gifts]|e0]; simpl in Heq; try discriminate.
    destruct (getattr gifts []); discriminate.
  - destruct r as [st|e0]; simpl in Heq; try discriminate.
    destruct (Qltb (balance_of st) (fst cand)) eqn:Hlt; try discriminate.
    injection Heq; intros; subst. eauto.
  - destruct r as [form|e0]; simpl in Heq; try discriminate.
    destruct (stars_form form); discriminate.
  - destruct r; discriminate.
Qed.

End Skips.

(** X19.  A skip line tells the truth: the entry just before it is a
    successful balance read, the balance the line shows is the balance of
    that read, and it is smaller than the price the line shows. *)
Theorem skip_line_reports_the_read_balance :
  forall fuel env cfg out w pre t b p post,
    run fuel env cfg = (out, w) ->
    timeline w = pre ++ (t, EvLog (LogSkip b p)) :: post ->
    exists pre' t' status,
      pre = pre' ++ [(t', EvStatus (Ok status))]
      /\ b = balance_of status
      /\ (b < p)%Q.
Proof.
  intros fuel env cfg out w pre t b p post Hrun Hcut.
  destruct (run_split env cfg _ _ _ _ _ _ Hrun Hcut)
    as [s [s' [ph [Hpre [Hs _]]]]].
  inversion Hs; subst.
  destruct (Trace_snoc_inv _ _ _ _ _ Hpre)
    as [[_ Habs]|[pre' [e [x [-> [_ Hlast]]]]]]; [discriminate|].
  destruct (Step_into_skip _ _ _ _ _ _ _ Hlast) as [t' [status [-> [-> Hlt]]]].
  exists pre', t', status. repeat split.
  unfold Qltb in Hlt. apply negb_true_iff in Hlt.
  apply Qnot_le_lt. intros Hle. apply Qle_bool_iff in Hle. congruence.
Qed.

Lemma skip_line_reports_the_read_balance_witness :
  exists pre' t' status,
    firstn 7 (timeline (snd (run 1 env_poor cfg0)))
    = pre' ++ [(t', EvStatus (Ok status))]
    /\ balance_of (stars_status 50) = balance_of status
    /\ (balance_of (stars_status 50) < inject_Z 100)%Q.
Proof.
  apply (skip_line_reports_the_read_balance 1 env_poor cfg0
           (fst (run 1 env_poor cfg0)) (snd (run 1 env_poor cfg0))
           (firstn 7 (timeline (snd (run 1 env_poor cfg0))))
           5 (balance_of (stars_status 50)) (inject_Z 100)
           (skipn 8 (timeline (snd (run 1 env_poor cfg0))))).
  - vm_compute. reflexivity.
  - vm_compute. reflexivity.
Defined.
